(** * The Coinbase order-book gateway: connection state machine and
      sequence checking of [OrderBook] (coinbase-api.ts)

    The class [OrderBook] keeps a live order book from a REST snapshot and
    a socket feed.  Its methods mutate the fields of [this], call the
    socket, the timer and the logger, emit events to subscribers and may
    throw.  The embedding below is a state-and-trace monad with exceptions
    over a record of the fields: every method of the class is one
    [Action], written statement by statement after the source. *)

From Stdlib Require Import ZArith QArith Lia.
From stdpp Require Import base gmap strings list pretty.

Local Open Scope string_scope.
Local Open Scope list_scope.
Local Open Scope Z_scope.

(** ** Data *)

(** [enum STATES { closed, open, syncing, processing, error }] *)
Inductive STATES := closed | open | syncing | processing | error.

#[global] Instance STATES_eq_dec : EqDecision STATES.
Proof. solve_decision. Defined.

(** A JSON scalar of the snapshot.  The code copies prices and sizes and
    never inspects them. *)
Inductive Json :=
| JNumber (n : Z)
| JString (s : string).

(** [{ 'price': array[0], 'size': array[1], 'id': array[2] }] *)
Record CoinbaseEntry := {
  entry_price : Json;
  entry_size : Json;
  entry_id : string
}.

(** What [book.sequence] holds: [null] after [clearBook], then whatever
    [message.sequence] was in the last message taken: a number, or
    [undefined] when the message had none. *)
Inductive Sequence :=
| SeqNull
| SeqUndefined
| SeqNumber (n : Z).

(** The book: [{ 'sequence': null, 'bids': {}, 'asks': {} }]; the two
    sides are JS objects used as maps from order id to entry. *)
Record CoinbaseBookStorage := {
  sequence : Sequence;
  bids : gmap string CoinbaseEntry;
  asks : gmap string CoinbaseEntry
}.

(** A parsed feed message, as [JSON.parse] returns it: the fields the
    class reads ([sequence], [type]) and the rest of its content.  The
    class checks nothing: a message of the feed that has no [sequence]
    (a subscription acknowledgement, an error report) has
    [msg_sequence = None], which the code reads as [undefined]. *)
Record Message := {
  msg_sequence : option Z;
  msg_type : string;
  msg_content : string
}.

(** The second argument of [processMessage].  It is declared [t: Date];
    [onMessage] passes [timeProvider.utcNow()], lodash's [forEach] passes
    the index of the element as a number. *)
Inductive JsValue :=
| JsDate (ms : Z)
| JsNumber (n : Z).

(** Modelled from the spec: [Models.Timestamped] (common/models.ts is not
    among the sources), the wrapper of a payload and its receipt time that
    [new Models.Timestamped(message, t)] builds from its two arguments. *)
Record Timestamped := {
  data : Message;
  time : JsValue
}.

(** A raw level [[price, size, orderID]] of the snapshot. *)
Record RawLevel := {
  level_price : Json;
  level_size : Json;
  level_id : string
}.

(** The parsed body of the snapshot; [data.bids] and [data.asks] may be
    absent ([data.bids && ...]). *)
Record Snapshot := {
  snap_sequence : Z;
  snap_bids : option (list RawLevel);
  snap_asks : option (list RawLevel)
}.

(** The body of a response, as [JSON.parse(body)] takes it: text that
    is not JSON, or the book of the exchange. *)
Inductive Body :=
| Malformed
| Parsed (data : Snapshot).

(** What the [request] callback receives: [err], or a response with its
    status code and its body. *)
Inductive Response :=
| RequestError
| HttpResponse (statusCode : Z) (body : Body).

(** The value of [this] inside a [function] expression, which its caller
    chooses: the order book for a method of the class and for a function
    bound with [bind(this)]; something else for the two inner functions
    of [loadSnapshot], which are not bound. *)
Inductive Receiver :=
| Instance
| Foreign.

(** The fields of an [OrderBook] instance.  A socket is identified by the
    number of sockets created before it; [socket = None] is the
    undefined field before the first [connect]. *)
Record OrderBook := {
  productID : string;
  websocketURI : string;
  restURI : string;
  state : option STATES;
  book : CoinbaseBookStorage;
  queue : list Message;
  socket : option nat;
  failCount : Z
}.

Definition set_state (v : option STATES) (ob : OrderBook) : OrderBook :=
  {| productID := productID ob; websocketURI := websocketURI ob;
     restURI := restURI ob; state := v; book := book ob;
     queue := queue ob; socket := socket ob; failCount := failCount ob |}.

Definition set_book (v : CoinbaseBookStorage) (ob : OrderBook) : OrderBook :=
  {| productID := productID ob; websocketURI := websocketURI ob;
     restURI := restURI ob; state := state ob; book := v;
     queue := queue ob; socket := socket ob; failCount := failCount ob |}.

Definition set_queue (v : list Message) (ob : OrderBook) : OrderBook :=
  {| productID := productID ob; websocketURI := websocketURI ob;
     restURI := restURI ob; state := state ob; book := book ob;
     queue := v; socket := socket ob; failCount := failCount ob |}.

Definition set_socket (v : option nat) (ob : OrderBook) : OrderBook :=
  {| productID := productID ob; websocketURI := websocketURI ob;
     restURI := restURI ob; state := state ob; book := book ob;
     queue := queue ob; socket := v; failCount := failCount ob |}.

Definition set_failCount (v : Z) (ob : OrderBook) : OrderBook :=
  {| productID := productID ob; websocketURI := websocketURI ob;
     restURI := restURI ob; state := state ob; book := book ob;
     queue := queue ob; socket := socket ob; failCount := v |}.

Definition set_sequence (v : Sequence) (b : CoinbaseBookStorage) : CoinbaseBookStorage :=
  {| sequence := v; bids := bids b; asks := asks b |}.

Definition set_bids (v : gmap string CoinbaseEntry) (b : CoinbaseBookStorage) : CoinbaseBookStorage :=
  {| sequence := sequence b; bids := v; asks := asks b |}.

Definition set_asks (v : gmap string CoinbaseEntry) (b : CoinbaseBookStorage) : CoinbaseBookStorage :=
  {| sequence := sequence b; bids := bids b; asks := v |}.

(** ** Effects and exceptions *)

Inductive Level := Info | Warn | Err.

(** The argument of [emit]: the [statechange] record, a raw message
    ([ignored]) or a time-stamped message. *)
Inductive Payload :=
| StateChange (old : option STATES) (new : STATES)
| Raw (m : Message)
| Stamped (ts : Timestamped).

(** [{ 'type': 'subscribe', 'product_id': this.productID }], which [sync]
    sends as JSON text. *)
Record SubscribeMessage := {
  sub_type : string;
  product_id : string
}.

(** What a method does to the world outside the fields, in order.  A log
    entry keeps the level and the leading text of the call.  An [Emit]
    hands the payload to the listeners of the event; the owner of the
    object is taken to listen to the events of the feed, [error] among
    them (without a listener, the [emit('error', ...)] of Node throws). *)
Inductive Effect :=
| Log (lvl : Level) (text : string)
| SocketClose (sock : nat)
| SocketNew (uri : string) (sock : nat)
| SocketSend (sock : nat) (msg : SubscribeMessage)
| SetTimeoutConnect (delay : Z)
| HttpGet (url : string)
| Emit (name : string) (p : Payload).

Inductive Exn :=
| Error (message : string)
| TypeError (message : string)
| SyntaxError (message : string).

(** [throw new Error("Tried to reconnect 4 times. Giving up.")] *)
Definition gaveUp : Exn := Error "Tried to reconnect 4 times. Giving up.".

(** [throw new Error("Could not disconnect (not connected)")] *)
Definition notConnected : Exn := Error "Could not disconnect (not connected)".

(** [this.socket.close()] and [this.socket.send(...)] on a socket that
    is [undefined]. *)
Definition cannotClose : Exn :=
  TypeError "Cannot read properties of undefined (reading 'close')".

Definition cannotSend : Exn :=
  TypeError "Cannot read properties of undefined (reading 'send')".

(** ** The monad of methods *)

(** The outcome of one call: the fields it leaves, the effects it
    performed, and the exception it threw, if any.  A thrown exception
    does not undo the assignments made before it. *)
Record Run := {
  final : OrderBook;
  trace : list Effect;
  thrown : option Exn
}.

Definition Action := OrderBook -> Run.

Definition skip : Action :=
  fun ob => {| final := ob; trace := []; thrown := None |}.

Definition andThen (a b : Action) : Action :=
  fun ob =>
    let r := a ob in
    match thrown r with
    | Some _ => r
    | None =>
        let r' := b (final r) in
        {| final := final r'; trace := trace r ++ trace r'; thrown := thrown r' |}
    end.

Definition perform (e : Effect) : Action :=
  fun ob => {| final := ob; trace := [e]; thrown := None |}.

Definition assign (f : OrderBook -> OrderBook) : Action :=
  fun ob => {| final := f ob; trace := []; thrown := None |}.

Definition throw (e : Exn) : Action :=
  fun ob => {| final := ob; trace := []; thrown := Some e |}.

(** Read the fields of [this] at this point of the method. *)
Definition withThis (k : OrderBook -> Action) : Action :=
  fun ob => k ob ob.

Declare Scope action_scope.
Delimit Scope action_scope with action.
Bind Scope action_scope with Action.
Notation "a ;; b" := (andThen a b)
  (at level 100, b at level 200, right associativity) : action_scope.
Local Open Scope action_scope.

(** ** The methods of [OrderBook] *)

(** ToNumber, as [<=], [!=] and [+] apply it: [null] is 0, [undefined]
    is NaN ([None]). *)
Definition toNumber (s : Sequence) : option Z :=
  match s with
  | SeqNull => Some 0
  | SeqUndefined => None
  | SeqNumber n => Some n
  end.

(** [message.sequence] as a value of [book.sequence]. *)
Definition messageSequence (s : option Z) : Sequence :=
  match s with
  | Some n => SeqNumber n
  | None => SeqUndefined
  end.

(** [a <= b] on numbers: false when either is NaN. *)
Definition lessEq (a b : option Z) : bool :=
  match a, b with
  | Some x, Some y => x <=? y
  | _, _ => false
  end.

(** [a != b] for [a] a number or [undefined] and [b] a number: true
    when [a] is [undefined] or [b] is NaN. *)
Definition notEqual (a b : option Z) : bool :=
  match a, b with
  | Some x, Some y => negb (x =? y)
  | _, _ => true
  end.

(** [s + 1] *)
Definition plusOne (s : option Z) : option Z :=
  match s with
  | Some n => Some (n + 1)
  | None => None
  end.

Definition emptyBook : CoinbaseBookStorage :=
  {| sequence := SeqNull; bids := ∅; asks := ∅ |}.

Definition clearBook : Action :=
  assign (set_queue []) ;;
  assign (set_book emptyBook).

(** [this.socket.close()]: a TypeError when the field is undefined. *)
Definition socketClose : Action :=
  withThis (fun this =>
    match socket this with
    | Some s => perform (SocketClose s)
    | None => throw cannotClose
    end).

Definition nextSocket (ob : OrderBook) : nat :=
  match socket ob with
  | Some s => S s
  | None => O
  end.

Definition connect : Action :=
  perform (Log Info "Starting connect") ;;
  withThis (fun this =>
    match socket this with
    | Some s => perform (SocketClose s)
    | None => skip
    end) ;;
  clearBook ;;
  withThis (fun this =>
    perform (SocketNew (websocketURI this) (nextSocket this)) ;;
    assign (set_socket (Some (nextSocket this)))).

Definition isFailure (st : STATES) : bool :=
  match st with
  | error | closed => true
  | _ => false
  end.

Definition changeState (st : STATES) : Action :=
  withThis (fun this =>
    let oldState := state this in
    assign (set_state (Some st)) ;;
    withThis (fun this =>
      if 3 <? failCount this then throw gaveUp else skip) ;;
    match st with
    | error | closed =>
        assign (fun this => set_failCount (failCount this + 1) this) ;;
        socketClose ;;
        perform (SetTimeoutConnect 5000)
    | processing => assign (set_failCount 0)
    | _ => skip
    end ;;
    perform (Log Info "statechange: ") ;;
    perform (Emit "statechange" (StateChange oldState st))).

Definition processMessage (message : Message) (t : JsValue) : Action :=
  withThis (fun this =>
    if lessEq (msg_sequence message) (toNumber (sequence (book this))) then
      perform (Emit "ignored" (Raw message))
    else
      (if notEqual (msg_sequence message) (plusOne (toNumber (sequence (book this)))) then
         changeState error ;;
         perform (Log Warn "Received message out of order, expected")
       else skip) ;;
      assign (fun this =>
        set_book (set_sequence (messageSequence (msg_sequence message)) (book this)) this) ;;
      perform (Emit (msg_type message) (Stamped {| data := message; time := t |}))).

(** [_.forEach(array, iteratee)]: the iteratee receives each element and
    its index; an exception leaves the loop. *)
Fixpoint forEachFrom (i : Z) (array : list Message)
    (iteratee : Message -> JsValue -> Action) : Action :=
  match array with
  | [] => skip
  | value :: rest => iteratee value (JsNumber i) ;; forEachFrom (i + 1) rest iteratee
  end.

Definition forEach (array : list Message)
    (iteratee : Message -> JsValue -> Action) : Action :=
  forEachFrom 0 array iteratee.

Definition convertSnapshotArray (array : RawLevel) : CoinbaseEntry :=
  {| entry_price := level_price array; entry_size := level_size array;
     entry_id := level_id array |}.

(** One turn of a loop of [load]: [side[entry.id] = entry]. *)
Definition insertLevel (side : gmap string CoinbaseEntry) (array : RawLevel)
    : gmap string CoinbaseEntry :=
  <[ entry_id (convertSnapshotArray array) := convertSnapshotArray array ]> side.

Definition insertLevels (levels : option (list RawLevel))
    (side : gmap string CoinbaseEntry) : gmap string CoinbaseEntry :=
  match levels with
  | Some l => foldl insertLevel side l
  | None => side
  end.

(** The first part of [load]: the two loops and the assignment of the
    sequence. *)
Definition mergeSnapshot (d : Snapshot) : Action :=
  assign (fun this => set_book (set_bids (insertLevels (snap_bids d) (bids (book this))) (book this)) this) ;;
  assign (fun this => set_book (set_asks (insertLevels (snap_asks d) (asks (book this))) (book this)) this) ;;
  assign (fun this => set_book (set_sequence (SeqNumber (snap_sequence d)) (book this)) this).

(** The body of a [function] expression that reaches for a member of
    [this] before it does anything else: it runs on the order book, and
    throws the [TypeError] of the missing member on another receiver. *)
Definition bound (this : Receiver) (missing : Exn) (body : Action) : Action :=
  match this with
  | Instance => body
  | Foreign => throw missing
  end.

(** [var load = function(data) { ... }], an inner function of
    [loadSnapshot].  Its only call is the plain call [load(...)] of the
    [request] callback, in which [this] is [undefined] (the code of a
    class body is strict): the first [this.book], in a loop or in the
    assignment of the sequence, throws before any field is written. *)
Definition load (this : Receiver) (data : Snapshot) : Action :=
  bound this (TypeError "Cannot read properties of undefined (reading 'book')")
    (mergeSnapshot data ;;
     changeState processing ;;
     withThis (fun this => forEach (queue this) processMessage) ;;
     assign (set_queue [])).

(** [JSON.parse(body)] *)
Definition parse (body : Body) (k : Snapshot -> Action) : Action :=
  match body with
  | Malformed => throw (SyntaxError "Unexpected token in JSON")
  | Parsed data => k data
  end.

(** [function(err, response, body) { ... }], the callback that
    [loadSnapshot] hands to [request].  [request] applies its callback to
    the [Request] object, which has no [changeState]. *)
Definition requestCallback (this : Receiver) (r : Response) : Action :=
  match r with
  | RequestError =>
      bound this (TypeError "this.changeState is not a function")
        (changeState error ;;
         perform (Log Err "error: Failed to load snapshot"))
  | HttpResponse statusCode body =>
      if negb (statusCode =? 200) then
        bound this (TypeError "this.changeState is not a function")
          (changeState error ;;
           perform (Log Err "Failed to load snapshot"))
      else parse body (load Foreign)
  end.

(** The arrival of the response to the request of [loadSnapshot]. *)
Definition onSnapshot (r : Response) : Action :=
  requestCallback Foreign r.

Definition loadSnapshot : Action :=
  withThis (fun this =>
    perform (HttpGet (restURI this +:+ "/products/" +:+ productID this +:+ "/book?level=3"))).

Definition sync : Action :=
  changeState syncing ;;
  withThis (fun this =>
    match socket this with
    | Some s =>
        perform (SocketSend s {| sub_type := "subscribe"; product_id := productID this |})
    | None => throw cannotSend
    end) ;;
  loadSnapshot.

Definition onOpen : Action :=
  changeState open ;;
  sync.

Definition onClose : Action :=
  changeState closed.

Definition disconnect : Action :=
  withThis (fun this =>
    match socket this with
    | None => throw notConnected
    | Some _ => skip
    end) ;;
  socketClose ;;
  onClose.

(** [onMessage]: [now] is what [timeProvider.utcNow()] returns, [d] what
    [JSON.parse(datastr)] returns. *)
Definition onMessage (now : Z) (d : Message) : Action :=
  withThis (fun this =>
    if decide (state this = Some processing) then
      processMessage d (JsDate now)
    else
      assign (fun this => set_queue (queue this ++ [d]) this)).

(** The fields when the constructor starts, and the constructor, which
    calls [connect]. *)
Definition blank (pid ws rest : string) : OrderBook :=
  {| productID := pid; websocketURI := ws; restURI := rest;
     state := None; book := emptyBook; queue := []; socket := None;
     failCount := 0 |}.

Definition newOrderBook (pid ws rest : string) : OrderBook :=
  final (connect (blank pid ws rest)).

(** ** Calls from outside

    The socket, the timer, the HTTP client and the owner of the object
    call its methods one after the other.  An exception that leaves a
    call does not undo what the call assigned: the next call starts from
    the fields the previous one left. *)

Inductive Call :=
| CallConnect
| CallDisconnect
| CallClearBook
| CallChangeState (st : STATES)
| CallOnOpen
| CallOnClose
| CallOnMessage (now : Z) (d : Message)
| CallSync
| CallLoadSnapshot
| CallOnSnapshot (r : Response)
| CallProcessMessage (message : Message) (t : JsValue).

Definition call (c : Call) : Action :=
  match c with
  | CallConnect => connect
  | CallDisconnect => disconnect
  | CallClearBook => clearBook
  | CallChangeState st => changeState st
  | CallOnOpen => onOpen
  | CallOnClose => onClose
  | CallOnMessage now d => onMessage now d
  | CallSync => sync
  | CallLoadSnapshot => loadSnapshot
  | CallOnSnapshot r => onSnapshot r
  | CallProcessMessage message t => processMessage message t
  end.

Fixpoint runCalls (calls : list Call) (ob : OrderBook) : list Run :=
  match calls with
  | [] => []
  | c :: cs => call c ob :: runCalls cs (final (call c ob))
  end.

Definition after (calls : list Call) (ob : OrderBook) : OrderBook :=
  foldl (fun o c => final (call c o)) ob calls.

(** ** What subscribers and the world observe *)

Definition isStateChange (e : Effect) : bool :=
  match e with
  | Emit _ (StateChange _ _) => true
  | _ => false
  end.

Definition isTimer (e : Effect) : bool :=
  match e with
  | SetTimeoutConnect _ => true
  | _ => false
  end.

Definition isSocketClose (e : Effect) : bool :=
  match e with
  | SocketClose _ => true
  | _ => false
  end.

(** The failure-specific actions of [changeState] that show in the trace. *)
Definition isFailureAction (e : Effect) : bool :=
  isSocketClose e || isTimer e.

(** The number of reconnect timers set by a series of calls. *)
Definition timersSet (rs : list Run) : nat :=
  length (List.filter isTimer (concat (map trace rs))).

(** The domain events (time-stamped messages) among the effects. *)
Definition domainEvents (tr : list Effect) : list (string * Timestamped) :=
  omap (fun e => match e with
                 | Emit name (Stamped ts) => Some (name, ts)
                 | _ => None
                 end) tr.

(** A freshly constructed order book, used in the examples. *)
Definition sampleBook : OrderBook :=
  newOrderBook "BTC-USD" "wss://ws-feed.exchange.coinbase.com"
    "https://api.exchange.coinbase.com".




(** An action is stuck when, once the counter is above 3, it neither
    changes the counter nor emits a [statechange]. *)
Definition Stuck (a : Action) : Prop :=
  forall ob : OrderBook,
    3 < failCount ob ->
    failCount (final (a ob)) = failCount ob
    /\ Forall (fun e => isStateChange e = false) (trace (a ob)).

(** ** Sample inputs *)

Definition sampleMessage (n : Z) : Message :=
  {| msg_sequence := Some n; msg_type := "match"; msg_content := "" |}.

(** A message of the feed that has no sequence, as the acknowledgement
    of a subscription. *)
Definition unnumberedMessage : Message :=
  {| msg_sequence := None; msg_type := "subscriptions"; msg_content := "" |}.

Definition sampleBids : list RawLevel :=
  [ {| level_price := JNumber 100; level_size := JNumber 2; level_id := "a" |};
    {| level_price := JNumber 99; level_size := JNumber 1; level_id := "b" |} ].

Definition sampleAsks : list RawLevel :=
  [ {| level_price := JNumber 101; level_size := JNumber 3; level_id := "c" |} ].

(** Bids [[100,2,a],[99,1,b]] and asks [[101,3,c]] at sequence 50. *)
Definition sampleSnapshot : Snapshot :=
  {| snap_sequence := 50;
     snap_bids := Some sampleBids;
     snap_asks := Some sampleAsks |}.

(** The sample book after its owner passed it a message of sequence 50
    and set it to [processing]: state [processing] at sequence 50, with
    no failure counted. *)
Definition processingBook : OrderBook :=
  after [CallProcessMessage (sampleMessage 50) (JsDate 0);
         CallChangeState processing] sampleBook.


Definition fourFailures : list Call := replicate 4 (CallChangeState error).

(** The sample book after four transitions into [error]. *)
Definition failedBook : OrderBook := after fourFailures sampleBook.


(** The fields before the constructor has called [connect]. *)
Definition blankBook : OrderBook :=
  blank "BTC-USD" "wss://ws-feed.exchange.coinbase.com"
    "https://api.exchange.coinbase.com".

(** A message of sequence 51 that arrives at time 1700000000000 while
    the snapshot is being fetched, then the snapshot. *)
Definition queuedThenLoaded : list Call :=
  [CallOnOpen;
   CallOnMessage 1700000000000 (sampleMessage 51);
   CallOnSnapshot (HttpResponse 200 (Parsed sampleSnapshot))].

(** ** Invariants and frames of the methods *)

(** Neither test of [processMessage] passes: the message has no
    sequence, the book's sequence is [undefined], or the sequence is
    above the next one. *)
Definition outOfOrder (message : Message) (ob : OrderBook) : Prop :=
  lessEq (msg_sequence message) (toNumber (sequence (book ob))) = false
  /\ notEqual (msg_sequence message) (plusOne (toNumber (sequence (book ob)))) = true.

(** The action keeps the property of the fields, whether it returns or
    throws. *)
Definition Preserves (P : OrderBook -> Prop) (a : Action) : Prop :=
  forall ob : OrderBook, P ob -> P (final (a ob)).

Definition counterInRange (ob : OrderBook) : Prop :=
  0 <= failCount ob <= 4.

(** The errors of a call that finds no socket. *)
Definition missingSocket (e : Exn) : Prop :=
  e = notConnected \/ e = cannotClose \/ e = cannotSend.

(** With a socket in place the action keeps it in place and throws none
    of the errors of a missing socket. *)
Definition Safe (a : Action) : Prop :=
  forall ob : OrderBook,
    is_Some (socket ob) ->
    is_Some (socket (final (a ob)))
    /\ (forall e : Exn, thrown (a ob) = Some e -> ~ missingSocket e).

(** The two sides of the book are the given maps. *)
Definition sidesAre (b a : gmap string CoinbaseEntry) (ob : OrderBook) : Prop :=
  bids (book ob) = b /\ asks (book ob) = a.

(** The calls that write the sides: [connect] and [clearBook], which
    empty them. *)
Definition writesSides (c : Call) : bool :=
  match c with
  | CallConnect | CallClearBook => true
  | _ => false
  end.

(** ** The life of an order book on its feed *)

(** The calls that the socket, the timer, the HTTP client and the
    methods themselves make, and those of the owner other than the two
    that stand in for the bootstrap: entering [processing] and handing a
    message to [processMessage] directly. *)
Definition feedCall (c : Call) : bool :=
  match c with
  | CallChangeState processing => false
  | CallProcessMessage _ _ => false
  | _ => true
  end.

(** The book is as [clearBook] left it and the state is not
    [processing]. *)
Definition awaitingSnapshot (ob : OrderBook) : Prop :=
  state ob <> Some processing /\ book ob = emptyBook.

(** The action keeps the property and, on fields that have it, emits no
    domain event. *)
Definition Silent (P : OrderBook -> Prop) (a : Action) : Prop :=
  forall ob : OrderBook,
    P ob -> P (final (a ob)) /\ domainEvents (trace (a ob)) = [].

(** What a call does to the queue while the state is not [processing]. *)
Definition queueAfter (q : list Message) (c : Call) : list Message :=
  match c with
  | CallConnect | CallClearBook => []
  | CallOnMessage _ d => q ++ [d]
  | _ => q
  end.

(** The messages received since the last [connect] or [clearBook], in
    their order of arrival. *)
Definition pending (calls : list Call) : list Message :=
  foldl queueAfter [] calls.

(** The one call that sets the counter back: the transition into
    [processing]. *)
Definition resetsCounter (c : Call) : bool :=
  match c with
  | CallChangeState processing => true
  | _ => false
  end.

(** ** Reference functions for series of messages *)

(** The messages of a series that are not stale when their turn comes,
    with [current] the number read from the book's sequence: a message
    is stale when it carries a sequence that is at most the one of the
    last message taken before it. *)
Fixpoint accepted (current : option Z) (messages : list Message) : list Message :=
  match messages with
  | [] => []
  | m :: rest =>
      if lessEq (msg_sequence m) current then accepted current rest
      else m :: accepted (msg_sequence m) rest
  end.

(** The stale messages of a series, the others. *)
Fixpoint rejected (current : option Z) (messages : list Message) : list Message :=
  match messages with
  | [] => []
  | m :: rest =>
      if lessEq (msg_sequence m) current then m :: rejected current rest
      else rejected (msg_sequence m) rest
  end.

(** The number read from the book's sequence after a series: that of
    the last message taken, or the one before the series. *)
Fixpoint reached (current : option Z) (messages : list Message) : option Z :=
  match messages with
  | [] => current
  | m :: rest =>
      if lessEq (msg_sequence m) current then reached current rest
      else reached (msg_sequence m) rest
  end.

(** The messages emitted as [ignored] among the effects. *)
Definition ignoredEvents (tr : list Effect) : list Message :=
  omap (fun e => match e with
                 | Emit name (Raw m) => Some m
                 | _ => None
                 end) tr.

(** The largest of the current sequence and the sequences of a series. *)
Definition highest (current : Z) (messages : list Message) : Z :=
  foldl (fun c m => match msg_sequence m with
                    | Some s => Z.max c s
                    | None => c
                    end) current messages.

(** A series of messages handed to [processMessage], one call each. *)
Definition processed (events : list (Message * JsValue)) : list Call :=
  map (fun ev => CallProcessMessage (fst ev) (snd ev)) events.

(** The messages of a feed as calls of [onMessage], in arrival order. *)
Definition arrivals (feed : list (Z * Message)) : list Call :=
  map (fun nd => CallOnMessage (fst nd) (snd nd)) feed.

(** A socket close, the timer firing, the new socket opening and the
    snapshot arriving with status 200. *)
Definition recovery (d : Snapshot) : list Call :=
  [CallOnClose; CallConnect; CallOnOpen; CallOnSnapshot (HttpResponse 200 (Parsed d))].

(** The request for the snapshot did not bring a body with status 200. *)
Definition failedResponse (r : Response) : bool :=
  match r with
  | RequestError => true
  | HttpResponse statusCode _ => negb (statusCode =? 200)
  end.

(** * The HTTP publisher of stored data (StandaloneHttpPublisher) *)

(** What [parseInt] returns: an integer or NaN. *)
Inductive ParsedInt :=
| NaN
| Int (n : Z).

(** [rawMax === null ? null : cvt(rawMax)], with [rawMax] the query
    parameter or [null] when the request has none. *)
Definition getParameter {T : Type} (raw : option string) (cvt : string -> T) : option T :=
  match raw with
  | None => None
  | Some r => Some (cvt r)
  end.

(** lodash's [_.takeRight(array, n)] for an integer [n]: the slice of
    [array] from [length - n], or from 0 when that is negative. *)
Definition takeRight {T : Type} (array : list T) (n : Z) : list T :=
  let len := Z.of_nat (length array) in
  if len =? 0 then []
  else
    let start := len - n in
    drop (Z.to_nat (if start <? 0 then 0 else start)) array.

(** [handler]: what is sent as JSON for the loaded records [d].  The
    test is [max !== null && max <= d.length]; a comparison with NaN is
    false. *)
Definition handler {T : Type} (max : option ParsedInt) (d : list T) : list T :=
  match max with
  | None => d
  | Some NaN => d
  | Some (Int n) => if n <=? Z.of_nat (length d) then takeRight d n else d
  end.

(** The response to a request: [max] is the query parameter parsed by
    [parseInt], [d] the records the persister loaded. *)
Definition respond {T : Type} (parseInt : string -> ParsedInt)
    (rawMax : option string) (d : list T) : list T :=
  handler (getParameter rawMax parseInt) d.

(** * The logger factory (logging.ts) *)

(** [s.indexOf(target) > -1], which lodash's [_.includes] computes on a
    string. *)
Fixpoint startsWith (s target : string) : bool :=
  match target, s with
  | EmptyString, _ => true
  | String _ _, EmptyString => false
  | String c target', String c' s' =>
      if decide (c = c') then startsWith s' target' else false
  end.

Fixpoint stringIncludes (s target : string) : bool :=
  startsWith s target
  || match s with
     | EmptyString => false
     | String _ s' => stringIncludes s' target
     end.

(** The logger that [winston.createLogger] is asked for: its label and
    the level of its console transport. *)
Record Logger := {
  logger_label : string;
  console_level : string
}.

(** [logger(name, level)]: the console level is [level || 'info']. *)
Definition logger (name : string) (level : option string) : Logger :=
  {| logger_label := name;
     console_level := match level with
                      | Some l => if decide (l = "") then "info" else l
                      | None => "info"
                      end |}.

(** [log(name)], with [argv] the value of [process.argv]. *)
Definition log (argv : list string) (name : string) : Logger :=
  let isRunFromMocha :=
    (2 <=? length argv)%nat
    && match argv !! 1%nat with
       | Some script => stringIncludes script "mocha"
       | None => false
       end in
  if isRunFromMocha then logger name (Some "crit")
  else logger name (if bool_decide ("debug" ∈ argv) then Some "debug" else None).

(** * The REST clients (PublicClient, AuthenticatedClient) *)

(** A value of a [GenericObject]: a string, a number (taken as a
    rational), a nested object; [true] is what [request] assigns to
    [json]. *)
Unset Elimination Schemes.
Inductive Value :=
| VString (s : string)
| VNumber (q : Q)
| VBoolean (b : bool)
| VObject (fields : gmap string Value).
Set Elimination Schemes.

(** ToBoolean, as [&&] and [||] apply it. *)
Definition truthy (v : Value) : bool :=
  match v with
  | VString s => negb (String.eqb s "")
  | VNumber q => negb (Qeq_bool q 0)
  | VBoolean b => b
  | VObject _ => true
  end.

(** [typeof v === 'string'] *)
Definition isString (v : Value) : bool :=
  match v with
  | VString _ => true
  | _ => false
  end.

(** [_.assign(target, source)]: the properties of the source overwrite
    those of the target; a [null] source is skipped. *)
Definition objectAssign (target : gmap string Value)
    (source : option (gmap string Value)) : gmap string Value :=
  match source with
  | Some s => s ∪ target
  | None => target
  end.

Definition defaultHeaders : gmap string Value :=
  {[ "User-Agent" := VString "coinbase-node-client";
     "Accept" := VString "application/json";
     "Content-Type" := VString "application/json" ]}.

(** [addHeaders(obj, additional)]: [obj.headers = obj.headers || {}],
    then [_.assign(obj.headers, defaults, additional)]; the result is
    [obj].  On headers that are a truthy primitive [_.assign] writes to a
    wrapper and [obj] keeps the primitive. *)
Definition addHeaders (obj : gmap string Value)
    (additional : option (gmap string Value)) : gmap string Value :=
  let headers := match obj !! "headers" with
                 | Some v => if truthy v then v else VObject ∅
                 | None => VObject ∅
                 end in
  <[ "headers" := match headers with
                  | VObject h =>
                      VObject (objectAssign (objectAssign h (Some defaultHeaders)) additional)
                  | primitive => primitive
                  end ]> obj.

(** The headers object that [addHeaders] fills: the one [obj] has, a new
    one when [obj.headers] is missing or falsy, none when it is a truthy
    primitive. *)
Definition headersObject (obj : gmap string Value) : option (gmap string Value) :=
  match obj !! "headers" with
  | Some (VObject h) => Some h
  | Some v => if truthy v then None else Some ∅
  | None => Some ∅
  end.

Inductive Method := GET | POST | PUT | DELETE.

Definition methodName (m : Method) : string :=
  match m with
  | GET => "GET"
  | POST => "POST"
  | PUT => "PUT"
  | DELETE => "DELETE"
  end.

(** An element of [uriParts: (string | number)[]]; a number is an
    integer id, which [join] writes in decimal. *)
Inductive Part :=
| PString (s : string)
| PNumber (n : Z).

Definition partToString (p : Part) : string :=
  match p with
  | PString s => s
  | PNumber n => pretty n
  end.

(** [parts.join(sep)] *)
Fixpoint join (sep : string) (parts : list string) : string :=
  match parts with
  | [] => ""
  | [p] => p
  | p :: rest => p +:+ sep +:+ join sep rest
  end.

Definition makeRelativeURI (parts : list Part) : string :=
  "/" +:+ join "/" (map partToString parts).

Definition makeAbsoluteURI (apiURI relativeURI : string) : string :=
  apiURI +:+ relativeURI.

(** What a call of a client method comes to: the options handed to the
    [request] library, or an exception. *)
Inductive Outcome :=
| Requested (options : gmap string Value)
| Threw (e : Exn).

(** Reading [opts.body] when [opts] is [null]; the wording of the
    message is the engine's. *)
Definition bodyOfNull : Exn :=
  TypeError "Cannot read properties of null (reading 'body')".

(** [if (opts.body && (typeof opts.body !== 'string'))
    opts.body = JSON.stringify(opts.body)], the same statement in both
    clients; [stringify] is [JSON.stringify]. *)
Definition stringifyBody (stringify : Value -> string)
    (o : gmap string Value) : gmap string Value :=
  match o !! "body" with
  | Some b => if truthy b && negb (isString b)
              then <[ "body" := VString (stringify b) ]> o
              else o
  | None => o
  end.

Module PublicClient.
Section WithRuntime.

(** [JSON.stringify] and the object that [new HttpsAgent()] makes. *)
Variable stringify : Value -> string.
Variable httpsAgent : Value.

Definition request (apiURI : string) (method : Method) (uriParts : list Part)
    (opts : option (gmap string Value)) : Outcome :=
  match opts with
  | None => Threw bodyOfNull
  | Some o =>
      let o1 := stringifyBody stringify o in
      let o2 := objectAssign o1
                  (Some {[ "method" := VString (methodName method);
                           "uri" := VString (makeAbsoluteURI apiURI (makeRelativeURI uriParts));
                           "json" := VBoolean true;
                           "agent" := httpsAgent ]}) in
      Requested (addHeaders o2 None)
  end.

Definition getProducts (apiURI : string) : Outcome :=
  request apiURI GET [PString "products"] None.

Definition getProductOrderBook (apiURI : string) (productID : Z) (level : Q) : Outcome :=
  request apiURI GET [PString "products"; PNumber productID; PString "book"]
    (Some {[ "qs" := VObject {[ "level" := VNumber level ]} ]}).

Definition getProductTicker (apiURI : string) (productID : Part) : Outcome :=
  request apiURI GET [PString "products"; productID; PString "ticker"] None.

Definition getProductTrades (apiURI : string) (productID : Part) : Outcome :=
  request apiURI GET [PString "products"; productID; PString "trades"] None.

Definition getProductHistoricRates (apiURI : string) (productID : Part) : Outcome :=
  request apiURI GET [PString "products"; productID; PString "candles"] None.

Definition getProduct24HrStats (apiURI : string) (productID : Part) : Outcome :=
  request apiURI GET [PString "products"; productID; PString "stats"] None.

Definition getCurrencies (apiURI : string) : Outcome :=
  request apiURI GET [PString "currencies"] None.

Definition getTime (apiURI : string) : Outcome :=
  request apiURI GET [PString "time"] None.

End WithRuntime.
End PublicClient.

Module AuthenticatedClient.

(** The fields of the client. *)
Record Credentials := {
key : string;
b64secret : string;
passphrase : string;
apiURI : string
}.

Section WithRuntime.

(** [JSON.stringify]; the text of a number in a string concatenation;
    the base64 digest of the HMAC-SHA256 of a text under a base64
    secret. *)
Variable stringify : Value -> string.
Variable numberToString : Q -> string.
Variable hmacSha256 : string -> string -> string.

(** [opts.body || ''] as the last operand of the concatenation. *)
Definition bodyText (o : gmap string Value) : string :=
  match o !! "body" with
  | Some b =>
      if truthy b then
        match b with
        | VString s => s
        | VNumber q => numberToString q
        | VBoolean true => "true"
        | VBoolean false => "false"
        | VObject _ => "[object Object]"
        end
      else ""
  | None => ""
  end.

(** [request]; [now] is what [Date.now()] returns, in milliseconds. *)
Definition request (c : Credentials) (now : Z) (method : Method)
    (uriParts : list Part) (opts : option (gmap string Value)) : Outcome :=
  let relativeURI := makeRelativeURI uriParts in
  match opts with
  | None => Threw bodyOfNull
  | Some o =>
      let o1 := objectAssign o
                  (Some {[ "method" := VString (methodName method);
                           "uri" := VString (makeAbsoluteURI (apiURI c) relativeURI) ]}) in
      let o2 := stringifyBody stringify o1 in
      let timestamp := (now # 1000)%Q in
      let what := numberToString timestamp +:+ methodName method
                  +:+ relativeURI +:+ bodyText o2 in
      let signature := hmacSha256 (b64secret c) what in
      Requested
        (addHeaders o2
           (Some {[ "CB-ACCESS-KEY" := VString (key c);
                    "CB-ACCESS-SIGN" := VString signature;
                    "CB-ACCESS-TIMESTAMP" := VNumber timestamp;
                    "CB-ACCESS-PASSPHRASE" := VString (passphrase c) ]}))
  end.

Definition getAccounts (c : Credentials) (now : Z) : Outcome :=
  request c now GET [PString "accounts"] None.

Definition getAccount (c : Credentials) (now : Z) (accountID : Part) : Outcome :=
  request c now GET [PString "accounts"; accountID] None.

Definition getAccountHistory (c : Credentials) (now : Z) (accountID : Part) : Outcome :=
  request c now GET [PString "accounts"; accountID; PString "ledger"] None.

Definition getAccountHolds (c : Credentials) (now : Z) (accountID : Part) : Outcome :=
  request c now GET [PString "accounts"; accountID; PString "holds"] None.

Definition _placeOrder (c : Credentials) (now : Z) (params : Value) : Outcome :=
  request c now POST [PString "orders"] (Some {[ "body" := params ]}).

Definition buy (c : Credentials) (now : Z) (params : gmap string Value) : Outcome :=
  _placeOrder c now (VObject (<[ "side" := VString "buy" ]> params)).

Definition sell (c : Credentials) (now : Z) (params : gmap string Value) : Outcome :=
  _placeOrder c now (VObject (<[ "side" := VString "sell" ]> params)).

Definition cancelOrder (c : Credentials) (now : Z) (orderID : Part) : Outcome :=
  request c now DELETE [PString "orders"; orderID] None.

Definition cancelAllOrders (c : Credentials) (now : Z) : Outcome :=
  request c now DELETE [PString "orders"] None.

Definition getOrders (c : Credentials) (now : Z) : Outcome :=
  request c now GET [PString "orders"] None.

Definition getOrder (c : Credentials) (now : Z) (orderID : Part) : Outcome :=
  request c now GET [PString "orders"; orderID] None.

Definition getFills (c : Credentials) (now : Z) : Outcome :=
  request c now GET [PString "fills"] None.

Definition _transferFunds (c : Credentials) (now : Z) (params : Value) : Outcome :=
  request c now POST [PString "transfers"] (Some {[ "body" := params ]}).

Definition deposit (c : Credentials) (now : Z) (params : gmap string Value) : Outcome :=
  _transferFunds c now (VObject (<[ "type" := VString "deposit" ]> params)).

Definition withdraw (c : Credentials) (now : Z) (params : gmap string Value) : Outcome :=
  _transferFunds c now (VObject (<[ "type" := VString "withdraw" ]> params)).

End WithRuntime.
End AuthenticatedClient.


(** ** The earlier revision of the authenticated client

    The second copy of the file checks the parameters of an order before
    it places it.  Its [request] prepares the same options as the later
    one (it calls [addHeaders] for its effect on [opts] and returns
    nothing). *)
Module EarlierAuthenticatedClient.
Section WithRuntime.

Variable stringify : Value -> string.
Variable numberToString : Q -> string.
Variable hmacSha256 : string -> string -> string.

(** [throw new Error("`opts` must include param `" + param + "`")] *)
Definition missingParam (param : string) : Exn :=
  Error ("`opts` must include param `" +:+ param +:+ "`").

(** The loop [_.forEach(['size', 'side', 'product_id'], ...)]: the first
    name for which [params[param] === undefined] is reported. *)
Fixpoint firstMissing (names : list string) (params : gmap string Value) : option string :=
  match names with
  | [] => None
  | param :: rest =>
      match params !! param with
      | None => Some param
      | Some _ => firstMissing rest params
      end
  end.

Definition _placeOrder (c : AuthenticatedClient.Credentials) (now : Z)
    (params : gmap string Value) : Outcome :=
  match firstMissing ["size"; "side"; "product_id"] params with
  | Some param => Threw (missingParam param)
  | None =>
      AuthenticatedClient.request stringify numberToString hmacSha256 c now
        POST [PString "orders"] (Some {[ "body" := VObject params ]})
  end.

Definition buy (c : AuthenticatedClient.Credentials) (now : Z)
    (params : gmap string Value) : Outcome :=
  _placeOrder c now (<[ "side" := VString "buy" ]> params).

Definition sell (c : AuthenticatedClient.Credentials) (now : Z)
    (params : gmap string Value) : Outcome :=
  _placeOrder c now (<[ "side" := VString "sell" ]> params).

End WithRuntime.
End EarlierAuthenticatedClient.
(** * Properties *)

(** ** Sequencing *)

Lemma andThen_ok (a b : Action) (ob o' : OrderBook) (t : list Effect) :
  a ob = {| final := o'; trace := t; thrown := None |} ->
  andThen a b ob =
    {| final := final (b o'); trace := t ++ trace (b o'); thrown := thrown (b o') |}.
Proof. intros Ha. unfold andThen. rewrite Ha. reflexivity. Qed.

Lemma andThen_thrown (a b : Action) (ob : OrderBook) (e : Exn) :
  thrown (a ob) = Some e -> andThen a b ob = a ob.
Proof. intros Ha. unfold andThen. rewrite Ha. reflexivity. Qed.

Lemma andThen_skip (b : Action) (ob : OrderBook) : andThen skip b ob = b ob.
Proof. unfold andThen. cbn. destruct (b ob); reflexivity. Qed.

Lemma andThen_assign (f : OrderBook -> OrderBook) (b : Action) (ob : OrderBook) :
  andThen (assign f) b ob = b (f ob).
Proof. unfold andThen. cbn. destruct (b (f ob)); reflexivity. Qed.

Lemma andThen_perform (e : Effect) (b : Action) (ob : OrderBook) :
  andThen (perform e) b ob =
    {| final := final (b ob); trace := e :: trace (b ob); thrown := thrown (b ob) |}.
Proof. reflexivity. Qed.

Lemma andThen_throw (e : Exn) (b : Action) (ob : OrderBook) :
  andThen (throw e) b ob = throw e ob.
Proof. reflexivity. Qed.

Lemma andThen_withThis (k : OrderBook -> Action) (b : Action) (ob : OrderBook) :
  andThen (withThis k) b ob = andThen (k ob) b ob.
Proof. reflexivity. Qed.

Lemma withThis_run (k : OrderBook -> Action) (ob : OrderBook) :
  withThis k ob = k ob ob.
Proof. reflexivity. Qed.

Lemma andThen_assoc (a b c : Action) (ob : OrderBook) :
  andThen (andThen a b) c ob = andThen a (andThen b c) ob.
Proof.
  unfold andThen. destruct (a ob) as [o1 t1 [e1 |]]; cbn; [reflexivity |].
  destruct (b o1) as [o2 t2 [e2 |]]; cbn; [reflexivity |].
  rewrite app_assoc. reflexivity.
Qed.

(** Run the straight-line part of a method. *)
Ltac step_action :=
  repeat first
    [ rewrite andThen_assoc
    | rewrite andThen_assign
    | rewrite andThen_perform
    | rewrite andThen_skip
    | rewrite andThen_throw
    | rewrite andThen_withThis
    | rewrite withThis_run
    | progress cbv beta
    | progress cbn [final trace thrown failCount socket state book queue
                    productID websocketURI restURI
                    set_state set_failCount set_book set_queue set_socket] ].

(** ** The equations of [changeState] *)

Lemma changeState_gaveUp (st : STATES) (ob : OrderBook) :
  3 < failCount ob ->
  changeState st ob =
    {| final := set_state (Some st) ob; trace := []; thrown := Some gaveUp |}.
Proof.
  intros Hfc. unfold changeState. step_action.
  destruct (Z.ltb_spec 3 (failCount ob)) as [_ | Hle]; [| lia].
  step_action. reflexivity.
Qed.

Lemma changeState_failure (st : STATES) (ob : OrderBook) (s : nat) :
  isFailure st = true ->
  socket ob = Some s ->
  failCount ob <= 3 ->
  changeState st ob =
    {| final := set_failCount (failCount ob + 1) (set_state (Some st) ob);
       trace := [SocketClose s; SetTimeoutConnect 5000; Log Info "statechange: ";
                 Emit "statechange" (StateChange (state ob) st)];
       thrown := None |}.
Proof.
  intros Hf Hs Hfc. unfold changeState. step_action.
  destruct (Z.ltb_spec 3 (failCount ob)) as [Hgt | _]; [lia |].
  destruct st; try discriminate Hf; unfold socketClose; step_action;
    rewrite Hs; step_action; reflexivity.
Qed.

Lemma changeState_processing (ob : OrderBook) :
  failCount ob <= 3 ->
  changeState processing ob =
    {| final := set_failCount 0 (set_state (Some processing) ob);
       trace := [Log Info "statechange: ";
                 Emit "statechange" (StateChange (state ob) processing)];
       thrown := None |}.
Proof.
  intros Hfc. unfold changeState. step_action.
  destruct (Z.ltb_spec 3 (failCount ob)) as [Hgt | _]; [lia |].
  step_action. reflexivity.
Qed.

Lemma changeState_quiet (st : STATES) (ob : OrderBook) :
  st = open \/ st = syncing ->
  failCount ob <= 3 ->
  changeState st ob =
    {| final := set_state (Some st) ob;
       trace := [Log Info "statechange: ";
                 Emit "statechange" (StateChange (state ob) st)];
       thrown := None |}.
Proof.
  intros Hst Hfc. unfold changeState. step_action.
  destruct (Z.ltb_spec 3 (failCount ob)) as [Hgt | _]; [lia |].
  destruct Hst as [-> | ->]; step_action; reflexivity.
Qed.

(** ** Series of calls *)




(** ** Reconnect cycles without a transition into [processing] *)


Lemma connect_run (ob : OrderBook) :
  connect ob =
    {| final := set_socket (Some (nextSocket ob)) (set_book emptyBook (set_queue [] ob));
       trace := Log Info "Starting connect"
                :: match socket ob with
                   | Some s => [SocketClose s]
                   | None => []
                   end
                ++ [SocketNew (websocketURI ob) (nextSocket ob)];
       thrown := None |}.
Proof.
  unfold connect, clearBook, nextSocket. step_action.
  destruct (socket ob) as [s |] eqn:Hs; step_action; rewrite ?Hs; reflexivity.
Qed.


(** ** Once the counter is above 3 *)

Lemma Stuck_skip : Stuck skip.
Proof. intros ob _. cbn. auto. Qed.

Lemma Stuck_throw (e : Exn) : Stuck (throw e).
Proof. intros ob _. cbn. auto. Qed.

Lemma Stuck_perform (e : Effect) : isStateChange e = false -> Stuck (perform e).
Proof. intros He ob _. cbn. auto. Qed.

Lemma Stuck_assign (f : OrderBook -> OrderBook) :
  (forall ob, failCount (f ob) = failCount ob) -> Stuck (assign f).
Proof. intros Hf ob _. cbn. auto. Qed.

Lemma Stuck_withThis (k : OrderBook -> Action) :
  (forall this, Stuck (k this)) -> Stuck (withThis k).
Proof. intros Hk ob Hfc. unfold withThis. apply Hk, Hfc. Qed.

Lemma Stuck_andThen (a b : Action) : Stuck a -> Stuck b -> Stuck (andThen a b).
Proof.
  intros Ha Hb ob Hfc. destruct (Ha ob Hfc) as [Hfa Hta].
  unfold andThen. destruct (thrown (a ob)); [auto |].
  destruct (Hb (final (a ob))) as [Hfb Htb]; [lia |].
  cbn. split; [lia | apply Forall_app; auto].
Qed.

Lemma Stuck_changeState (st : STATES) : Stuck (changeState st).
Proof. intros ob Hfc. rewrite changeState_gaveUp by exact Hfc. cbn. auto. Qed.

Ltac stuck :=
  repeat match goal with
    | |- Stuck (andThen _ _) => apply Stuck_andThen
    | |- Stuck (withThis _) => apply Stuck_withThis; intros ?; cbv beta
    | |- Stuck (changeState _) => apply Stuck_changeState
    | |- Stuck skip => apply Stuck_skip
    | |- Stuck (throw _) => apply Stuck_throw
    | |- Stuck (perform _) => apply Stuck_perform; reflexivity
    | |- Stuck (assign _) => apply Stuck_assign; intros ?; reflexivity
    | |- Stuck (match ?x with _ => _ end) => destruct x
    end.

Lemma Stuck_processMessage (message : Message) (t : JsValue) :
  Stuck (processMessage message t).
Proof. unfold processMessage. stuck. Qed.

Lemma Stuck_onSnapshot (r : Response) : Stuck (onSnapshot r).
Proof.
  unfold onSnapshot, requestCallback, parse, load, bound.
  destruct r as [| statusCode [| data]]; [apply Stuck_throw | |];
    destruct (negb _); apply Stuck_throw.
Qed.

Lemma Stuck_call (c : Call) : Stuck (call c).
Proof.
  destruct c as [| | | st | | | now d | | | r | message t]; cbn [call].
  - unfold connect, clearBook. stuck.
  - unfold disconnect, onClose, socketClose. stuck.
  - unfold clearBook. stuck.
  - stuck.
  - unfold onOpen, sync, loadSnapshot. stuck.
  - unfold onClose. stuck.
  - unfold onMessage. apply Stuck_withThis; intros this.
    destruct (decide _); [apply Stuck_processMessage | stuck].
  - unfold sync, loadSnapshot. stuck.
  - unfold loadSnapshot. stuck.
  - apply Stuck_onSnapshot.
  - apply Stuck_processMessage.
Qed.

Lemma Stuck_runCalls (calls : list Call) :
  forall ob : OrderBook,
    3 < failCount ob ->
    failCount (after calls ob) = failCount ob
    /\ Forall (fun r => failCount (final r) = failCount ob
                        /\ Forall (fun e => isStateChange e = false) (trace r))
         (runCalls calls ob).
Proof.
  induction calls as [| c cs IH]; intros ob Hfc; cbn [runCalls].
  - split; [reflexivity | constructor].
  - destruct (Stuck_call c ob Hfc) as [Hf Ht].
    destruct (IH (final (call c ob))) as [IHf IHr]; [lia |].
    change (after (c :: cs) ob) with (after cs (final (call c ob))).
    split; [lia |].
    constructor; [auto |].
    rewrite <- Hf. exact IHr.
Qed.

(** C10. Once the failure counter exceeds 3, every later call of
    [changeState], for any target state and after any other calls, throws
    the give-up error with no effect performed: no [statechange] is
    emitted, the counter is neither incremented nor reset.  No call of any
    method changes the counter or emits a [statechange] from then on. *)
Theorem changeState_gives_up_for_good (ob : OrderBook) :
  3 < failCount ob ->
  forall (calls : list Call) (st : STATES),
    let ob' := after calls ob in
    changeState st ob' =
      {| final := set_state (Some st) ob'; trace := []; thrown := Some gaveUp |}
    /\ failCount (final (changeState st ob')) = failCount ob
    /\ Forall (fun r => failCount (final r) = failCount ob
                        /\ Forall (fun e => isStateChange e = false) (trace r))
         (runCalls calls ob).
Proof.
  intros Hfc calls st ob'.
  destruct (Stuck_runCalls calls ob Hfc) as [Hafter Hruns].
  assert (Hfc' : 3 < failCount ob') by (unfold ob'; lia).
  rewrite (changeState_gaveUp st ob' Hfc'). cbn.
  repeat split; [exact Hafter | exact Hruns].
Qed.

Lemma changeState_gives_up_for_good_witness :
  3 < failCount failedBook
  /\ thrown (changeState processing
               (after [CallConnect; CallOnOpen] failedBook)) = Some gaveUp
  /\ failCount (final (changeState processing
                         (after [CallConnect; CallOnOpen] failedBook))) = 4.
Proof.
  assert (H : 3 < failCount failedBook) by (vm_compute; reflexivity).
  split; [exact H |].
  destruct (changeState_gives_up_for_good failedBook H [CallConnect; CallOnOpen] processing)
    as (Heq & Hfc & _).
  split; [rewrite Heq; reflexivity | rewrite Hfc; vm_compute; reflexivity].
Defined.

(** C3, as amended.  While the counter is at most 3, [changeState] emits
    [statechange] with the old and the new state as its last action, after
    the failure-specific ones (increment, socket close, reconnect timer)
    when the target is [error] or [closed]; once the counter is above 3
    it throws and emits nothing. *)
Theorem changeState_emits_last (st : STATES) (ob : OrderBook) :
  (failCount ob <= 3 ->
   (isFailure st = true -> is_Some (socket ob)) ->
   exists failureActions : list Effect,
     trace (changeState st ob)
       = failureActions ++ [Log Info "statechange: ";
                            Emit "statechange" (StateChange (state ob) st)]
     /\ thrown (changeState st ob) = None
     /\ (isFailure st = true ->
         exists s, socket ob = Some s
                   /\ failureActions = [SocketClose s; SetTimeoutConnect 5000]
                   /\ failCount (final (changeState st ob)) = failCount ob + 1)
     /\ (isFailure st = false -> failureActions = []))
  /\ (3 < failCount ob ->
      trace (changeState st ob) = [] /\ thrown (changeState st ob) = Some gaveUp).
Proof.
  split.
  - intros Hfc Hsock. destruct (isFailure st) eqn:Hf.
    + destruct (Hsock eq_refl) as [s Hs].
      exists [SocketClose s; SetTimeoutConnect 5000].
      rewrite (changeState_failure st ob s Hf Hs Hfc). cbn.
      split; [reflexivity |]. split; [reflexivity |]. split; [| discriminate].
      intros _. exists s. auto.
    + exists [].
      assert (Hrun : changeState st ob
                     = {| final := (if decide (st = processing)
                                    then set_failCount 0 (set_state (Some st) ob)
                                    else set_state (Some st) ob);
                          trace := [Log Info "statechange: ";
                                    Emit "statechange" (StateChange (state ob) st)];
                          thrown := None |}).
      { destruct st; try discriminate Hf.
        - rewrite (changeState_quiet open ob) by auto. reflexivity.
        - rewrite (changeState_quiet syncing ob) by auto. reflexivity.
        - rewrite (changeState_processing ob Hfc). reflexivity. }
      rewrite Hrun. cbn.
      split; [reflexivity |]. split; [reflexivity |]. split; [discriminate | reflexivity].
  - intros Hfc. rewrite (changeState_gaveUp st ob Hfc). cbn. auto.
Qed.

Lemma changeState_emits_last_witness :
  failCount sampleBook <= 3
  /\ 3 < failCount failedBook
  /\ trace (changeState error sampleBook)
     = [SocketClose 0; SetTimeoutConnect 5000; Log Info "statechange: ";
        Emit "statechange" (StateChange None error)]
  /\ trace (changeState error failedBook) = [].
Proof.
  assert (H1 : failCount sampleBook <= 3) by (vm_compute; discriminate).
  assert (H2 : 3 < failCount failedBook) by (vm_compute; reflexivity).
  assert (H3 : isFailure error = true -> is_Some (socket sampleBook))
    by (intros _; exists O; reflexivity).
  split; [exact H1 |]. split; [exact H2 |]. split.
  - destruct (changeState_emits_last error sampleBook) as [Hle _].
    destruct (Hle H1 H3) as (acts & Htrace & _ & Hfail & _).
    destruct (Hfail eq_refl) as (s & Hs & Hacts & _).
    rewrite Htrace, Hacts. injection Hs as <-. reflexivity.
  - destruct (changeState_emits_last error failedBook) as [_ Hgt].
    exact (proj1 (Hgt H2)).
Defined.

(** C3, as worded, fails: on a fresh book the transition into [error]
    closes the socket and sets the timer before it emits [statechange],
    and with the counter at 4 no [statechange] is emitted at all. *)
Lemma statechange_not_emitted_first :
  ~ (exists pre post : list Effect,
       trace (changeState error sampleBook)
         = pre ++ Emit "statechange" (StateChange (state sampleBook) error) :: post
       /\ Forall (fun e => isFailureAction e = false) pre)
  /\ ~ In (Emit "statechange" (StateChange (state failedBook) error))
         (trace (changeState error failedBook)).
Proof.
  split.
  - intros (pre & post & Htrace & Hpre).
    rewrite (changeState_failure error sampleBook O eq_refl eq_refl) in Htrace
      by (vm_compute; discriminate).
    cbn [trace] in Htrace.
    destruct pre as [| e pre]; cbn in Htrace; [discriminate Htrace |].
    injection Htrace as <- _.
    inversion Hpre as [| ? ? He _]. discriminate He.
  - rewrite changeState_gaveUp by (vm_compute; reflexivity). cbn. auto.
Qed.

(** ** Counting failures *)








(** ** The equations of [processMessage] *)

(** The three ways through [processMessage]: the message is stale, it is
    the next one, or neither test passes and the transition into [error]
    runs first. *)
Lemma processMessage_cases (message : Message) (t : JsValue) (ob : OrderBook) :
  (lessEq (msg_sequence message) (toNumber (sequence (book ob))) = true
   /\ processMessage message t ob =
        {| final := ob; trace := [Emit "ignored" (Raw message)]; thrown := None |})
  \/ (lessEq (msg_sequence message) (toNumber (sequence (book ob))) = false
      /\ notEqual (msg_sequence message) (plusOne (toNumber (sequence (book ob)))) = false
      /\ processMessage message t ob =
           {| final := set_book (set_sequence (messageSequence (msg_sequence message))
                                   (book ob)) ob;
              trace := [Emit (msg_type message) (Stamped {| data := message; time := t |})];
              thrown := None |})
  \/ (lessEq (msg_sequence message) (toNumber (sequence (book ob))) = false
      /\ notEqual (msg_sequence message) (plusOne (toNumber (sequence (book ob)))) = true
      /\ processMessage message t ob =
           andThen (changeState error)
             (andThen (perform (Log Warn "Received message out of order, expected"))
                (andThen (assign (fun this =>
                            set_book (set_sequence (messageSequence (msg_sequence message))
                                        (book this)) this))
                   (perform (Emit (msg_type message)
                               (Stamped {| data := message; time := t |}))))) ob).
Proof.
  unfold processMessage, withThis.
  destruct (lessEq (msg_sequence message) (toNumber (sequence (book ob)))).
  - left. auto.
  - right.
    destruct (notEqual (msg_sequence message) (plusOne (toNumber (sequence (book ob))))).
    + right. split; [reflexivity |]. split; [reflexivity |].
      rewrite andThen_assoc. reflexivity.
    + left. auto.
Qed.

Lemma processMessage_stale (message : Message) (t : JsValue) (ob : OrderBook)
    (s current : Z) :
  msg_sequence message = Some s ->
  toNumber (sequence (book ob)) = Some current ->
  s <= current ->
  processMessage message t ob =
    {| final := ob; trace := [Emit "ignored" (Raw message)]; thrown := None |}.
Proof.
  intros Hs Hc Hle. unfold processMessage, withThis. rewrite Hs, Hc. cbn [lessEq].
  destruct (Z.leb_spec s current); [reflexivity | lia].
Qed.

Lemma processMessage_inOrder (message : Message) (t : JsValue) (ob : OrderBook)
    (s current : Z) :
  msg_sequence message = Some s ->
  toNumber (sequence (book ob)) = Some current ->
  s = current + 1 ->
  processMessage message t ob =
    {| final := set_book (set_sequence (SeqNumber s) (book ob)) ob;
       trace := [Emit (msg_type message) (Stamped {| data := message; time := t |})];
       thrown := None |}.
Proof.
  intros Hs Hc Heq. unfold processMessage, withThis. rewrite Hs, Hc.
  cbn [lessEq notEqual plusOne messageSequence].
  destruct (Z.leb_spec s current); [lia |].
  rewrite (proj2 (Z.eqb_eq _ _) Heq). reflexivity.
Qed.

Lemma outOfOrder_gap (message : Message) (ob : OrderBook) (s current : Z) :
  msg_sequence message = Some s ->
  toNumber (sequence (book ob)) = Some current ->
  current + 1 < s ->
  outOfOrder message ob.
Proof.
  intros Hs Hc Hgap. unfold outOfOrder. rewrite Hs, Hc. cbn [lessEq notEqual plusOne].
  destruct (Z.leb_spec s current); [lia |].
  destruct (Z.eqb_spec s (current + 1)); [lia |]. auto.
Qed.

Lemma outOfOrder_unnumbered (message : Message) (ob : OrderBook) :
  msg_sequence message = None -> outOfOrder message ob.
Proof. intros Hs. unfold outOfOrder. rewrite Hs. auto. Qed.

Lemma outOfOrder_undefined (message : Message) (ob : OrderBook) :
  sequence (book ob) = SeqUndefined -> outOfOrder message ob.
Proof.
  intros Hu. unfold outOfOrder. rewrite Hu. cbn [toNumber plusOne].
  destruct (msg_sequence message); auto.
Qed.

(** Out of order, [changeState error] runs first; what follows depends
    on how that call ends. *)
Lemma processMessage_gap (message : Message) (t : JsValue) (ob : OrderBook) :
  outOfOrder message ob ->
  processMessage message t ob =
    andThen (changeState error)
      (andThen (perform (Log Warn "Received message out of order, expected"))
         (andThen (assign (fun this =>
                     set_book (set_sequence (messageSequence (msg_sequence message))
                                 (book this)) this))
            (perform (Emit (msg_type message)
                        (Stamped {| data := message; time := t |}))))) ob.
Proof.
  intros [Hle Hne].
  destruct (processMessage_cases message t ob) as [[H _] | [(_ & H & _) | (_ & _ & H)]];
    [congruence | congruence | exact H].
Qed.

Lemma processMessage_gap_run (message : Message) (t : JsValue) (ob : OrderBook) (s : nat) :
  outOfOrder message ob ->
  socket ob = Some s ->
  failCount ob <= 3 ->
  processMessage message t ob =
    {| final := set_book (set_sequence (messageSequence (msg_sequence message)) (book ob))
                  (set_failCount (failCount ob + 1) (set_state (Some error) ob));
       trace := [SocketClose s; SetTimeoutConnect 5000; Log Info "statechange: ";
                 Emit "statechange" (StateChange (state ob) error);
                 Log Warn "Received message out of order, expected";
                 Emit (msg_type message) (Stamped {| data := message; time := t |})];
       thrown := None |}.
Proof.
  intros Hgap Hs Hfc. rewrite (processMessage_gap message t ob Hgap).
  rewrite (andThen_ok _ _ _ _ _ (changeState_failure error ob s eq_refl Hs Hfc)).
  step_action. reflexivity.
Qed.

Lemma processMessage_gap_gaveUp (message : Message) (t : JsValue) (ob : OrderBook) :
  outOfOrder message ob ->
  3 < failCount ob ->
  processMessage message t ob =
    {| final := set_state (Some error) ob; trace := []; thrown := Some gaveUp |}.
Proof.
  intros Hgap Hfc. rewrite (processMessage_gap message t ob Hgap).
  rewrite (andThen_thrown _ _ _ gaveUp); rewrite (changeState_gaveUp error ob Hfc);
    reflexivity.
Qed.

(** [changeState] writes [state] and [failCount] only. *)
Lemma changeState_frame (st : STATES) (ob : OrderBook) :
  book (final (changeState st ob)) = book ob
  /\ queue (final (changeState st ob)) = queue ob
  /\ socket (final (changeState st ob)) = socket ob.
Proof.
  unfold changeState. step_action.
  destruct (3 <? failCount ob); step_action; [cbn; auto |].
  destruct st; unfold socketClose; step_action;
    try (destruct (socket ob) eqn:Hs; step_action); cbn; rewrite ?Hs; auto.
Qed.

(** [processMessage] leaves the book as it is or sets its sequence to
    that of a message that was not stale; it never touches the two
    sides. *)
Lemma processMessage_book (message : Message) (t : JsValue) (ob : OrderBook) :
  book (final (processMessage message t ob)) = book ob
  \/ (book (final (processMessage message t ob))
        = set_sequence (messageSequence (msg_sequence message)) (book ob)
      /\ lessEq (msg_sequence message) (toNumber (sequence (book ob))) = false).
Proof.
  destruct (processMessage_cases message t ob)
    as [[_ ->] | [(Hle & _ & ->) | (Hle & Hne & ->)]].
  - left. reflexivity.
  - right. split; [reflexivity | exact Hle].
  - destruct (changeState_frame error ob) as (Hbook & _ & _).
    destruct (changeState error ob) as [o' tr [e |]] eqn:Hcs; cbn in Hbook.
    + rewrite (andThen_thrown _ _ _ e) by (rewrite Hcs; reflexivity).
      left. rewrite Hcs. exact Hbook.
    + rewrite (andThen_ok _ _ _ _ _ Hcs). step_action.
      right. cbn. rewrite Hbook. split; [reflexivity | exact Hle].
Qed.

Lemma processMessage_sides (message : Message) (t : JsValue) (ob : OrderBook) :
  bids (book (final (processMessage message t ob))) = bids (book ob)
  /\ asks (book (final (processMessage message t ob))) = asks (book ob).
Proof.
  destruct (processMessage_book message t ob) as [-> | [-> _]]; auto.
Qed.

(** A message that carries a sequence, met by a book whose sequence is
    [null] or a number, leaves the sequence as it is or raises it. *)
Lemma processMessage_monotone (message : Message) (t : JsValue) (ob : OrderBook)
    (s current : Z) :
  msg_sequence message = Some s ->
  toNumber (sequence (book ob)) = Some current ->
  exists current' : Z,
    toNumber (sequence (book (final (processMessage message t ob)))) = Some current'
    /\ current <= current'
    /\ (sequence (book ob) <> SeqNull ->
        sequence (book (final (processMessage message t ob))) <> SeqNull).
Proof.
  intros Hs Hc.
  destruct (processMessage_book message t ob) as [-> | [-> Hle]].
  - exists current. split; [exact Hc |]. split; [lia | auto].
  - rewrite Hs, Hc in Hle. cbn [lessEq] in Hle. apply Z.leb_gt in Hle.
    exists s. rewrite Hs. cbn. split; [reflexivity |]. split; [lia | discriminate].
Qed.

(** C5, as amended.  Over every series of events that carry a sequence,
    applied through [processMessage] to a book whose sequence is [null]
    or a number, the sequence never decreases ([null] read as 0) and,
    once a number, stays one.  A stale event (sequence at most the
    current one) leaves every field as it is, emits [ignored] with the
    event and emits no domain event.  An event without a sequence is
    never stale: met with the counter at most 3 it is emitted as a domain
    event and leaves the sequence [undefined], and on that every event
    that carries a sequence is taken, whatever its sequence. *)
Theorem sequence_never_decreases_and_stale_is_ignored :
  (forall (events : list (Message * JsValue)) (ob : OrderBook) (current : Z),
     let calls := map (fun ev => CallProcessMessage (fst ev) (snd ev)) events in
     Forall (fun ev => is_Some (msg_sequence (fst ev))) events ->
     toNumber (sequence (book ob)) = Some current ->
     exists current' : Z,
       toNumber (sequence (book (after calls ob))) = Some current'
       /\ current <= current'
       /\ (sequence (book ob) <> SeqNull -> sequence (book (after calls ob)) <> SeqNull))
  /\ (forall (message : Message) (t : JsValue) (ob : OrderBook) (s current : Z),
        msg_sequence message = Some s ->
        toNumber (sequence (book ob)) = Some current ->
        s <= current ->
        processMessage message t ob =
          {| final := ob; trace := [Emit "ignored" (Raw message)]; thrown := None |}
        /\ domainEvents (trace (processMessage message t ob)) = [])
  /\ (forall (message : Message) (t : JsValue) (ob : OrderBook),
        msg_sequence message = None ->
        failCount ob <= 3 ->
        is_Some (socket ob) ->
        sequence (book (final (processMessage message t ob))) = SeqUndefined
        /\ ignoredEvents (trace (processMessage message t ob)) = []
        /\ domainEvents (trace (processMessage message t ob))
           = [(msg_type message, {| data := message; time := t |})])
  /\ (forall (message : Message) (t : JsValue) (ob : OrderBook) (s : Z),
        msg_sequence message = Some s ->
        sequence (book ob) = SeqUndefined ->
        failCount ob <= 3 ->
        is_Some (socket ob) ->
        sequence (book (final (processMessage message t ob))) = SeqNumber s
        /\ domainEvents (trace (processMessage message t ob))
           = [(msg_type message, {| data := message; time := t |})]).
Proof.
  split; [| split; [| split]].
  - intros events. induction events as [| [m t] events IH]; intros ob current calls Hall Hc.
    + exists current. cbn. split; [exact Hc |]. split; [lia | auto].
    + inversion Hall as [| ? ? [s Hs] Hrest]; subst.
      cbn [fst] in Hs.
      destruct (processMessage_monotone m t ob s current Hs Hc) as (c1 & Hc1 & Hle1 & Hnn1).
      destruct (IH (final (processMessage m t ob)) c1 Hrest Hc1) as (c2 & Hc2 & Hle2 & Hnn2).
      subst calls. cbn [map fst snd].
      change (after (CallProcessMessage m t :: ?cs) ob)
        with (after cs (final (processMessage m t ob))).
      exists c2. split; [exact Hc2 |]. split; [lia | auto].
  - intros message t ob s current Hs Hc Hstale.
    rewrite (processMessage_stale message t ob s current Hs Hc Hstale).
    split; reflexivity.
  - intros message t ob Hs Hfc [sock Hsock].
    rewrite (processMessage_gap_run message t ob sock
               (outOfOrder_unnumbered message ob Hs) Hsock Hfc).
    rewrite Hs. cbn. split; [reflexivity |]. split; reflexivity.
  - intros message t ob s Hs Hu Hfc [sock Hsock].
    rewrite (processMessage_gap_run message t ob sock
               (outOfOrder_undefined message ob Hu) Hsock Hfc).
    rewrite Hs. cbn. split; reflexivity.
Qed.

Lemma sequence_never_decreases_and_stale_is_ignored_witness :
  msg_sequence (sampleMessage 48) = Some 48
  /\ toNumber (sequence (book processingBook)) = Some 50
  /\ 48 <= 50
  /\ processMessage (sampleMessage 48) (JsDate 1700000000000) processingBook =
       {| final := processingBook;
          trace := [Emit "ignored" (Raw (sampleMessage 48))];
          thrown := None |}.
Proof.
  assert (Hs : msg_sequence (sampleMessage 48) = Some 48) by reflexivity.
  assert (Hc : toNumber (sequence (book processingBook)) = Some 50)
    by (vm_compute; reflexivity).
  assert (Hle : 48 <= 50) by lia.
  split; [exact Hs |]. split; [exact Hc |]. split; [exact Hle |].
  destruct sequence_never_decreases_and_stale_is_ignored as (_ & Hstale & _).
  exact (proj1 (Hstale (sampleMessage 48) (JsDate 1700000000000) processingBook
                  48 50 Hs Hc Hle)).
Defined.

(** C5, as worded, fails: at sequence 50, a message without a sequence
    followed by the event of sequence 3 leaves the book at sequence 3;
    the event of sequence 3, below 50, is not ignored but emitted as a
    domain event. *)
Lemma unnumbered_message_lets_sequence_decrease :
  sequence (book processingBook) = SeqNumber 50
  /\ sequence (book (after [CallProcessMessage unnumberedMessage (JsDate 1700000000000);
                            CallProcessMessage (sampleMessage 3) (JsDate 1700000000001)]
                       processingBook)) = SeqNumber 3
  /\ ~ (50 <= 3)
  /\ domainEvents
       (trace (processMessage (sampleMessage 3) (JsDate 1700000000001)
                 (after [CallProcessMessage unnumberedMessage (JsDate 1700000000000)]
                    processingBook)))
     = [("match", {| data := sampleMessage 3; time := JsDate 1700000000001 |})].
Proof.
  vm_compute. split; [reflexivity |]. split; [reflexivity |].
  split; [intros H; apply H; reflexivity | reflexivity].
Qed.

(** C1, as amended.  An event whose sequence is above the current one plus
    one, met with the counter at most 3, advances the sequence of the book
    to its own and is emitted to subscribers, with a warning logged; before
    that, the gap runs the transition into [error]: the state becomes
    [error], the counter goes up by one, the socket is closed, a reconnect
    is scheduled and [statechange] is emitted.  A stale event changes no
    field and neither closes the socket nor sets a timer. *)
Theorem gap_advances_sequence_and_reconnects
    (message : Message) (t : JsValue) (ob : OrderBook) (s current : Z) :
  msg_sequence message = Some s ->
  toNumber (sequence (book ob)) = Some current ->
  (current + 1 < s ->
   failCount ob <= 3 ->
   forall sock : nat, socket ob = Some sock ->
     processMessage message t ob =
       {| final := set_book (set_sequence (SeqNumber s) (book ob))
                     (set_failCount (failCount ob + 1) (set_state (Some error) ob));
          trace := [SocketClose sock; SetTimeoutConnect 5000; Log Info "statechange: ";
                    Emit "statechange" (StateChange (state ob) error);
                    Log Warn "Received message out of order, expected";
                    Emit (msg_type message) (Stamped {| data := message; time := t |})];
          thrown := None |})
  /\ (s <= current ->
      final (processMessage message t ob) = ob
      /\ thrown (processMessage message t ob) = None
      /\ Forall (fun e => isFailureAction e = false) (trace (processMessage message t ob))).
Proof.
  intros Hs Hc. split.
  - intros Hgap Hfc sock Hsock.
    rewrite (processMessage_gap_run message t ob sock
               (outOfOrder_gap message ob s current Hs Hc Hgap) Hsock Hfc).
    rewrite Hs. reflexivity.
  - intros Hstale. rewrite (processMessage_stale message t ob s current Hs Hc Hstale). cbn.
    split; [reflexivity |]. split; [reflexivity |]. repeat constructor.
Qed.

Lemma gap_advances_sequence_and_reconnects_witness :
  toNumber (sequence (book processingBook)) = Some 50
  /\ 50 + 1 < 53
  /\ failCount processingBook <= 3
  /\ 50 <= 50
  /\ sequence (book (final (processMessage (sampleMessage 53) (JsDate 1700000000000)
                              processingBook))) = SeqNumber 53
  /\ final (processMessage (sampleMessage 50) (JsDate 1700000000000) processingBook)
     = processingBook.
Proof.
  assert (Hc : toNumber (sequence (book processingBook)) = Some 50)
    by (vm_compute; reflexivity).
  assert (Hgap : 50 + 1 < 53) by lia.
  assert (Hfc : failCount processingBook <= 3) by (vm_compute; discriminate).
  assert (Hstale : 50 <= 50) by lia.
  split; [exact Hc |]. split; [exact Hgap |]. split; [exact Hfc |].
  split; [exact Hstale |]. split.
  - destruct (gap_advances_sequence_and_reconnects (sampleMessage 53)
                (JsDate 1700000000000) processingBook 53 50 eq_refl Hc) as [Hrun _].
    rewrite (Hrun Hgap Hfc O); reflexivity.
  - destruct (gap_advances_sequence_and_reconnects (sampleMessage 50)
                (JsDate 1700000000000) processingBook 50 50 eq_refl Hc) as [_ Hrun].
    exact (proj1 (Hrun Hstale)).
Defined.

(** C1, as worded, fails: in state [processing] at sequence 50, the event
    of sequence 53 takes the state to [error], closes the socket and sets
    the reconnect timer. *)
Lemma gap_closes_socket_and_schedules_reconnect :
  ~ (state (final (processMessage (sampleMessage 53) (JsDate 1700000000000) processingBook))
     = state processingBook
     /\ Forall (fun e => isFailureAction e = false)
          (trace (processMessage (sampleMessage 53) (JsDate 1700000000000) processingBook)))
  /\ state processingBook = Some processing
  /\ state (final (processMessage (sampleMessage 53) (JsDate 1700000000000) processingBook))
     = Some error
  /\ In (SocketClose 0)
       (trace (processMessage (sampleMessage 53) (JsDate 1700000000000) processingBook))
  /\ In (SetTimeoutConnect 5000)
       (trace (processMessage (sampleMessage 53) (JsDate 1700000000000) processingBook)).
Proof.
  vm_compute. split.
  - intros [Hstate _]. discriminate Hstate.
  - split; [reflexivity |]. split; [reflexivity |]. split; auto.
Qed.

(** ** Time stamps *)

Lemma domainEvents_app (tr1 tr2 : list Effect) :
  domainEvents (tr1 ++ tr2) = domainEvents tr1 ++ domainEvents tr2.
Proof. unfold domainEvents. apply omap_app. Qed.

Lemma changeState_domainEvents (st : STATES) (ob : OrderBook) :
  domainEvents (trace (changeState st ob)) = [].
Proof.
  unfold changeState. step_action.
  destruct (3 <? failCount ob); step_action; [reflexivity |].
  destruct st; unfold socketClose; step_action;
    try (destruct (socket ob) eqn:Hs; step_action); reflexivity.
Qed.

(** Every domain event that [processMessage message t] emits carries the
    message and the [t] it was called with. *)
Lemma processMessage_stamps (message : Message) (t : JsValue) (ob : OrderBook) :
  Forall (fun ev => snd ev = {| data := message; time := t |})
    (domainEvents (trace (processMessage message t ob))).
Proof.
  destruct (processMessage_cases message t ob)
    as [[_ ->] | [(_ & _ & ->) | (_ & _ & ->)]].
  - constructor.
  - repeat constructor.
  - pose proof (changeState_domainEvents error ob) as Hnone.
    destruct (changeState error ob) as [o' tr [e |]] eqn:Hcs; cbn [trace] in Hnone.
    + rewrite (andThen_thrown _ _ _ e) by (rewrite Hcs; reflexivity).
      rewrite Hcs. cbn [trace]. rewrite Hnone. constructor.
    + rewrite (andThen_ok _ _ _ _ _ Hcs). step_action.
      rewrite domainEvents_app, Hnone. repeat constructor.
Qed.

(** The live path: in state [processing], [onMessage] stamps the event
    with the time read on arrival. *)
Lemma onMessage_live (now : Z) (d : Message) (ob : OrderBook) :
  state ob = Some processing ->
  onMessage now d ob = processMessage d (JsDate now) ob
  /\ Forall (fun ev => snd ev = {| data := d; time := JsDate now |})
       (domainEvents (trace (onMessage now d ob))).
Proof.
  intros Hst. unfold onMessage. rewrite withThis_run.
  destruct (decide (state ob = Some processing)) as [_ | Hne]; [| contradiction].
  split; [reflexivity | apply processMessage_stamps].
Qed.

(** The queued path: in any other state, [onMessage] appends the message
    alone to the queue; the time read on arrival is kept nowhere. *)
Lemma onMessage_queued (now : Z) (d : Message) (ob : OrderBook) :
  state ob <> Some processing ->
  onMessage now d ob =
    {| final := set_queue (queue ob ++ [d]) ob; trace := []; thrown := None |}.
Proof.
  intros Hst. unfold onMessage. rewrite withThis_run.
  destruct (decide (state ob = Some processing)) as [Heq | _]; [contradiction |].
  reflexivity.
Qed.

(** The [request] callback, whatever the response: it throws before it
    writes a field or does anything to the outside. *)
Lemma onSnapshot_run (r : Response) (ob : OrderBook) :
  exists e : Exn,
    onSnapshot r ob = {| final := ob; trace := []; thrown := Some e |}
    /\ e <> gaveUp /\ e <> notConnected.
Proof.
  unfold onSnapshot, requestCallback, parse, load, bound.
  destruct r as [| statusCode [| data]]; [| destruct (negb _) ..];
    eexists; (split; [reflexivity | split; discriminate]).
Qed.


(** ** Connecting and disconnecting *)

Lemma onMessage_sides (now : Z) (d : Message) (ob : OrderBook) :
  bids (book (final (onMessage now d ob))) = bids (book ob)
  /\ asks (book (final (onMessage now d ob))) = asks (book ob).
Proof.
  unfold onMessage. rewrite withThis_run.
  destruct (decide (state ob = Some processing)) as [_ | _].
  - apply processMessage_sides.
  - cbn. auto.
Qed.

(** C7. Every call of [connect], the first or a later one, returns with
    both sides of the book empty, the sequence unset and the queue empty,
    whatever they held before; the new socket is created last in the
    call, so the first message it delivers finds no order id of the
    previous cycle, and handling that message brings none back. *)
Theorem connect_clears_book_and_queue (ob : OrderBook) :
  thrown (connect ob) = None
  /\ book (final (connect ob)) = {| sequence := SeqNull; bids := ∅; asks := ∅ |}
  /\ queue (final (connect ob)) = []
  /\ (exists before : list Effect,
        trace (connect ob) = before ++ [SocketNew (websocketURI ob) (nextSocket ob)]
        /\ socket (final (connect ob)) = Some (nextSocket ob))
  /\ (forall orderID : string,
        bids (book (final (connect ob))) !! orderID = None
        /\ asks (book (final (connect ob))) !! orderID = None)
  /\ (forall (now : Z) (d : Message) (orderID : string),
        bids (book (final (onMessage now d (final (connect ob))))) !! orderID = None
        /\ asks (book (final (onMessage now d (final (connect ob))))) !! orderID = None).
Proof.
  rewrite connect_run. cbn [final trace thrown].
  split; [reflexivity |]. split; [reflexivity |]. split; [reflexivity |]. split.
  - exists (Log Info "Starting connect"
            :: match socket ob with Some s => [SocketClose s] | None => [] end).
    split; reflexivity.
  - split.
    + intros orderID. cbn. split; apply lookup_empty.
    + intros now d orderID.
      destruct (onMessage_sides now d
                  (set_socket (Some (nextSocket ob)) (set_book emptyBook (set_queue [] ob))))
        as [-> ->].
      cbn. split; apply lookup_empty.
Qed.

(** C8. With no socket, [disconnect] throws the not-connected error at
    once: no field changes (state, counter, book, queue) and nothing is
    done to the outside. *)
Theorem disconnect_without_socket (ob : OrderBook) :
  socket ob = None ->
  disconnect ob = {| final := ob; trace := []; thrown := Some notConnected |}.
Proof.
  intros Hs. unfold disconnect. step_action. rewrite Hs. step_action. reflexivity.
Qed.

Lemma disconnect_without_socket_witness :
  socket blankBook = None
  /\ disconnect blankBook
     = {| final := blankBook; trace := []; thrown := Some notConnected |}.
Proof.
  split; [reflexivity |].
  apply (disconnect_without_socket blankBook). reflexivity.
Defined.

(** ** The snapshot *)

(** C9, on the code.  The snapshot is never merged: [load] is called
    without a receiver, so the callback of a response with status 200
    throws at the first [this.book], for every snapshot and every order
    book, and leaves every field as it was.  Bids [[100,2,a],[99,1,b]] and
    asks [[101,3,c]] at sequence 50, arriving at a fresh book whose socket
    has opened, leave the book at sequence [null] with both sides empty,
    in state [syncing]. *)
Theorem snapshot_is_never_merged :
  (forall (d : Snapshot) (ob : OrderBook),
     onSnapshot (HttpResponse 200 (Parsed d)) ob =
       {| final := ob; trace := [];
          thrown := Some (TypeError
                            "Cannot read properties of undefined (reading 'book')") |})
  /\ book (final (onSnapshot (HttpResponse 200 (Parsed sampleSnapshot))
                    (final (onOpen sampleBook))))
     = {| sequence := SeqNull; bids := ∅; asks := ∅ |}
  /\ state (final (onSnapshot (HttpResponse 200 (Parsed sampleSnapshot))
                     (final (onOpen sampleBook))))
     = Some syncing
  /\ book (final (onSnapshot (HttpResponse 200 (Parsed sampleSnapshot))
                    (final (onOpen sampleBook))))
     <> {| sequence := SeqNumber 50;
           bids := {[ "a" := {| entry_price := JNumber 100; entry_size := JNumber 2;
                                entry_id := "a" |};
                      "b" := {| entry_price := JNumber 99; entry_size := JNumber 1;
                                entry_id := "b" |} ]};
           asks := {[ "c" := {| entry_price := JNumber 101; entry_size := JNumber 3;
                                entry_id := "c" |} ]} |}.
Proof.
  split; [intros d ob; reflexivity |].
  split; [vm_compute; reflexivity |].
  split; [vm_compute; reflexivity |].
  intros Heq. apply (f_equal sequence) in Heq. vm_compute in Heq. discriminate Heq.
Qed.
(** * Further properties of the order book *)

(** ** Invariants through the methods *)

Lemma Preserves_skip (P : OrderBook -> Prop) : Preserves P skip.
Proof. intros ob H. exact H. Qed.

Lemma Preserves_throw (P : OrderBook -> Prop) (e : Exn) : Preserves P (throw e).
Proof. intros ob H. exact H. Qed.

Lemma Preserves_perform (P : OrderBook -> Prop) (e : Effect) : Preserves P (perform e).
Proof. intros ob H. exact H. Qed.

Lemma Preserves_assign (P : OrderBook -> Prop) (f : OrderBook -> OrderBook) :
  (forall ob, P ob -> P (f ob)) -> Preserves P (assign f).
Proof. intros Hf ob H. apply Hf, H. Qed.

Lemma Preserves_withThis (P : OrderBook -> Prop) (k : OrderBook -> Action) :
  (forall this, Preserves P (k this)) -> Preserves P (withThis k).
Proof. intros Hk ob H. apply (Hk ob ob H). Qed.

Lemma Preserves_andThen (P : OrderBook -> Prop) (a b : Action) :
  Preserves P a -> Preserves P b -> Preserves P (andThen a b).
Proof.
  intros Ha Hb ob H. unfold andThen.
  destruct (thrown (a ob)); [apply Ha, H |].
  cbn [final]. apply Hb, Ha, H.
Qed.

Lemma Preserves_onSnapshot (P : OrderBook -> Prop) (r : Response) :
  Preserves P (onSnapshot r).
Proof.
  intros ob H. destruct (onSnapshot_run r ob) as (e & -> & _). exact H.
Qed.

Lemma Preserves_after (P : OrderBook -> Prop) (calls : list Call) :
  (forall c, In c calls -> Preserves P (call c)) ->
  forall ob, P ob ->
    P (after calls ob) /\ Forall (fun r => P (final r)) (runCalls calls ob).
Proof.
  induction calls as [| c cs IH]; intros Hcalls ob H.
  - split; [exact H | constructor].
  - assert (Hc : P (final (call c ob))) by (apply Hcalls; [left; reflexivity | exact H]).
    destruct (IH (fun c' Hin => Hcalls c' (or_intror Hin)) _ Hc) as [IH1 IH2].
    split; [exact IH1 |]. cbn [runCalls]. constructor; assumption.
Qed.

(** Break a method into its statements; the leaves are closed by the
    hints of the invariant at hand. *)
Ltac preserves leaf :=
  repeat match goal with
    | |- Preserves _ (andThen _ _) => apply Preserves_andThen
    | |- Preserves _ (withThis _) => apply Preserves_withThis; intros ?; cbv beta
    | |- Preserves _ skip => apply Preserves_skip
    | |- Preserves _ (throw _) => apply Preserves_throw
    | |- Preserves _ (perform _) => apply Preserves_perform
    | |- Preserves _ (onSnapshot _) => apply Preserves_onSnapshot
    | |- Preserves _ (assign _) => apply Preserves_assign; intros ? ?; leaf
    | |- Preserves _ (match ?x with _ => _ end) => destruct x
    | |- Preserves _ _ => solve [leaf]
    end.

Ltac unfold_methods :=
  unfold connect, disconnect, clearBook, onOpen, onClose, onMessage, sync,
    loadSnapshot, socketClose.

(** *** The failure counter stays between 0 and 4 *)

Lemma changeState_counterInRange (st : STATES) :
  Preserves counterInRange (changeState st).
Proof.
  intros ob [Hlo Hhi]. unfold counterInRange.
  destruct (Z.le_gt_cases (failCount ob) 3) as [Hle | Hgt].
  - destruct (changeState_frame st ob) as (_ & _ & _).
    unfold changeState. step_action.
    destruct (Z.ltb_spec 3 (failCount ob)); [lia |].
    destruct st; unfold socketClose; step_action;
      try (destruct (socket ob); step_action); cbn; lia.
  - rewrite (changeState_gaveUp st ob Hgt). cbn. lia.
Qed.

Lemma processMessage_counterInRange (message : Message) (t : JsValue) :
  Preserves counterInRange (processMessage message t).
Proof.
  unfold processMessage.
  preserves ltac:(first [apply changeState_counterInRange | assumption]).
Qed.

Lemma call_counterInRange (c : Call) : Preserves counterInRange (call c).
Proof.
  destruct c; cbn [call]; unfold_methods;
    preserves ltac:(first [ apply changeState_counterInRange
                          | apply processMessage_counterInRange
                          | assumption ]).
Qed.

(** X1. On an order book built by the constructor, whatever methods are
    called afterwards and in whatever order, the failure counter stays
    between 0 and 4 after every call. *)
Theorem failCount_between_0_and_4 (pid ws rest : string) (calls : list Call) :
  Forall (fun r => 0 <= failCount (final r) <= 4)
    (runCalls calls (newOrderBook pid ws rest))
  /\ 0 <= failCount (after calls (newOrderBook pid ws rest)) <= 4.
Proof.
  assert (Hnew : counterInRange (newOrderBook pid ws rest)).
  { unfold newOrderBook. rewrite connect_run. cbn. unfold counterInRange. cbn. lia. }
  destruct (Preserves_after counterInRange calls
              (fun c _ => call_counterInRange c) _ Hnew) as [Hafter Hruns].
  split; [exact Hruns | exact Hafter].
Qed.

(** *** With a socket in place *)

Lemma Safe_skip : Safe skip.
Proof. intros ob Hs. cbn. split; [exact Hs | discriminate]. Qed.

Lemma Safe_perform (e : Effect) : Safe (perform e).
Proof. intros ob Hs. cbn. split; [exact Hs | discriminate]. Qed.

Lemma Safe_gaveUp : Safe (throw gaveUp).
Proof.
  intros ob Hs. cbn. split; [exact Hs |].
  intros e [= <-] [H | [H | H]]; discriminate H.
Qed.

Lemma Safe_assign (f : OrderBook -> OrderBook) :
  (forall ob, is_Some (socket ob) -> is_Some (socket (f ob))) -> Safe (assign f).
Proof. intros Hf ob Hs. cbn. split; [auto | discriminate]. Qed.

Lemma Safe_withThis (k : OrderBook -> Action) :
  (forall this, is_Some (socket this) -> Safe (k this)) -> Safe (withThis k).
Proof. intros Hk ob Hs. exact (Hk ob Hs ob Hs). Qed.

Lemma Safe_andThen (a b : Action) : Safe a -> Safe b -> Safe (andThen a b).
Proof.
  intros Ha Hb ob Hs. destruct (Ha ob Hs) as [Hsa Hta].
  unfold andThen. destruct (thrown (a ob)) as [e |] eqn:Hthrown.
  - rewrite Hthrown. auto.
  - cbn. apply Hb, Hsa.
Qed.

Lemma Safe_changeState (st : STATES) : Safe (changeState st).
Proof.
  intros ob Hs. destruct (changeState_frame st ob) as (_ & _ & Hsock).
  rewrite Hsock. split; [exact Hs |].
  destruct Hs as [s Hs].
  destruct (Z.le_gt_cases (failCount ob) 3) as [Hle | Hgt].
  - assert (Hnone : thrown (changeState st ob) = None).
    { destruct (isFailure st) eqn:Hf.
      + rewrite (changeState_failure st ob s Hf Hs Hle). reflexivity.
      + destruct st; try discriminate Hf.
        * rewrite (changeState_quiet open ob) by auto. reflexivity.
        * rewrite (changeState_quiet syncing ob) by auto. reflexivity.
        * rewrite (changeState_processing ob Hle). reflexivity. }
    rewrite Hnone. discriminate.
  - rewrite (changeState_gaveUp st ob Hgt). cbn.
    intros e [= <-] [H | [H | H]]; discriminate H.
Qed.

Lemma Safe_onSnapshot (r : Response) : Safe (onSnapshot r).
Proof.
  intros ob Hs.
  unfold onSnapshot, requestCallback, parse, load, bound.
  destruct r as [| statusCode [| data]]; [| destruct (negb _) ..]; cbn;
    (split; [exact Hs |]); intros e [= <-] [H | [H | H]]; discriminate H.
Qed.

Ltac safe leaf :=
  repeat match goal with
    | |- Safe (andThen _ _) => apply Safe_andThen
    | |- Safe (withThis _) =>
        let this := fresh "this" in
        let Hs := fresh "Hs" in
        let s := fresh "s" in
        let Hsock := fresh "Hsock" in
        apply Safe_withThis; intros this Hs; cbv beta;
        try (pose proof Hs as [s Hsock]; rewrite Hsock)
    | |- Safe skip => apply Safe_skip
    | |- Safe (perform _) => apply Safe_perform
    | |- Safe (throw gaveUp) => apply Safe_gaveUp
    | |- Safe (changeState _) => apply Safe_changeState
    | |- Safe (onSnapshot _) => apply Safe_onSnapshot
    | |- Safe (assign _) => apply Safe_assign; intros ? ?; solve [assumption | eexists; reflexivity]
    | |- Safe (match ?x with _ => _ end) => destruct x
    | |- Safe _ => solve [leaf]
    end.

Lemma Safe_processMessage (message : Message) (t : JsValue) :
  Safe (processMessage message t).
Proof. unfold processMessage. safe fail. Qed.

Lemma Safe_call (c : Call) : Safe (call c).
Proof.
  destruct c; cbn [call]; unfold_methods; safe ltac:(apply Safe_processMessage).
Qed.

(** X2. On an order book built by the constructor the socket field is
    set after every call, whatever methods are called and in whatever
    order: no call throws the not-connected error of [disconnect], and
    none fails on [this.socket.close()] or [this.socket.send(...)]. *)
Theorem constructed_book_keeps_its_socket (pid ws rest : string) (calls : list Call) :
  Forall (fun r => is_Some (socket (final r))
                   /\ thrown r <> Some notConnected
                   /\ thrown r <> Some cannotClose
                   /\ thrown r <> Some cannotSend)
    (runCalls calls (newOrderBook pid ws rest)).
Proof.
  assert (Hnew : is_Some (socket (newOrderBook pid ws rest))).
  { unfold newOrderBook. rewrite connect_run. cbn. eauto. }
  revert Hnew. generalize (newOrderBook pid ws rest).
  induction calls as [| c cs IH]; intros ob Hs; cbn [runCalls]; [constructor |].
  destruct (Safe_call c ob Hs) as [Hs' Ht].
  constructor; [| apply IH, Hs'].
  split; [exact Hs' |].
  unfold missingSocket in Ht.
  split; [| split]; intros He; apply (Ht _ He); auto.
Qed.

(** ** The queue *)

(** X3. While the state is not [processing], the messages that the socket
    delivers are appended to the queue in their order of arrival; nothing
    is emitted, nothing is thrown and no other field changes. *)
Theorem messages_queue_in_arrival_order (feed : list (Z * Message)) (ob : OrderBook) :
  state ob <> Some processing ->
  after (arrivals feed) ob = set_queue (queue ob ++ map snd feed) ob
  /\ Forall (fun r => trace r = [] /\ thrown r = None) (runCalls (arrivals feed) ob).
Proof.
  revert ob. induction feed as [| [now d] feed IH]; intros ob Hst.
  - cbn. rewrite app_nil_r. split; [destruct ob; reflexivity | constructor].
  - cbn [arrivals map fst snd runCalls call].
    change (after (CallOnMessage now d :: ?cs) ob)
      with (after cs (final (onMessage now d ob))).
    rewrite (onMessage_queued now d ob Hst). cbn [final].
    destruct (IH (set_queue (queue ob ++ [d]) ob) Hst) as [IHafter IHruns].
    split.
    + unfold arrivals in IHafter. rewrite IHafter. cbn.
      rewrite <- app_assoc. reflexivity.
    + constructor; [split; reflexivity | exact IHruns].
Qed.

Lemma messages_queue_in_arrival_order_witness :
  state sampleBook <> Some processing
  /\ queue (after (arrivals [(1000, sampleMessage 7); (1001, sampleMessage 5)]) sampleBook)
     = [sampleMessage 7; sampleMessage 5].
Proof.
  assert (H : state sampleBook <> Some processing) by discriminate.
  split; [exact H |].
  rewrite (proj1 (messages_queue_in_arrival_order
                    [(1000, sampleMessage 7); (1001, sampleMessage 5)] sampleBook H)).
  reflexivity.
Defined.

(** ** The sides of the book *)

Lemma changeState_sidesAre (b a : gmap string CoinbaseEntry) (st : STATES) :
  Preserves (sidesAre b a) (changeState st).
Proof.
  intros ob [Hb Ha]. destruct (changeState_frame st ob) as (Hbook & _ & _).
  unfold sidesAre. rewrite Hbook. auto.
Qed.

Lemma processMessage_sidesAre (b a : gmap string CoinbaseEntry)
    (message : Message) (t : JsValue) :
  Preserves (sidesAre b a) (processMessage message t).
Proof.
  intros ob [Hb Ha]. destruct (processMessage_sides message t ob) as [Hb' Ha'].
  unfold sidesAre. rewrite Hb', Ha'. auto.
Qed.

Lemma call_sidesAre (b a : gmap string CoinbaseEntry) (c : Call) :
  writesSides c = false -> Preserves (sidesAre b a) (call c).
Proof.
  intros Hc.
  destruct c as [| | | st | | | now d | | | r | message t];
    try discriminate Hc; cbn [call].
  - unfold_methods. preserves ltac:(first [apply changeState_sidesAre | assumption]).
  - apply changeState_sidesAre.
  - unfold_methods. preserves ltac:(first [apply changeState_sidesAre | assumption]).
  - apply changeState_sidesAre.
  - unfold onMessage.
    preserves ltac:(first [apply processMessage_sidesAre | assumption]).
  - unfold_methods. preserves ltac:(first [apply changeState_sidesAre | assumption]).
  - unfold_methods. preserves ltac:(first [apply changeState_sidesAre | assumption]).
  - apply Preserves_onSnapshot.
  - apply processMessage_sidesAre.
Qed.

(** X4. The two sides of the book are emptied by [connect] and
    [clearBook] and written by nothing else: through any series of other
    calls, feed messages and snapshot responses included, bids and asks
    stay as they were. *)
Theorem feed_messages_never_change_sides (calls : list Call) (ob : OrderBook) :
  Forall (fun c => writesSides c = false) calls ->
  bids (book (after calls ob)) = bids (book ob)
  /\ asks (book (after calls ob)) = asks (book ob).
Proof.
  intros Hcalls.
  refine (proj1 (Preserves_after (sidesAre (bids (book ob)) (asks (book ob))) calls _ ob _)).
  - intros c Hin. apply call_sidesAre.
    rewrite Forall_forall in Hcalls. apply Hcalls. apply list_elem_of_In. exact Hin.
  - split; reflexivity.
Qed.

Lemma feed_messages_never_change_sides_witness :
  Forall (fun c => writesSides c = false)
    [CallOnMessage 1000 (sampleMessage 51); CallOnMessage 1001 (sampleMessage 60);
     CallDisconnect]
  /\ bids (book (after [CallOnMessage 1000 (sampleMessage 51);
                        CallOnMessage 1001 (sampleMessage 60);
                        CallDisconnect] processingBook))
     = bids (book processingBook).
Proof.
  assert (H : Forall (fun c => writesSides c = false)
                [CallOnMessage 1000 (sampleMessage 51);
                 CallOnMessage 1001 (sampleMessage 60); CallDisconnect])
    by (repeat constructor).
  split; [exact H |].
  exact (proj1 (feed_messages_never_change_sides _ processingBook H)).
Defined.

(** ** Series of messages *)

Lemma ignoredEvents_app (tr1 tr2 : list Effect) :
  ignoredEvents (tr1 ++ tr2) = ignoredEvents tr1 ++ ignoredEvents tr2.
Proof. unfold ignoredEvents. apply omap_app. Qed.

Lemma changeState_ignoredEvents (st : STATES) (ob : OrderBook) :
  ignoredEvents (trace (changeState st ob)) = [].
Proof.
  unfold changeState. step_action.
  destruct (3 <? failCount ob); step_action; [reflexivity |].
  destruct st; unfold socketClose; step_action;
    try (destruct (socket ob) eqn:Hs; step_action); reflexivity.
Qed.

Lemma toNumber_messageSequence (s : option Z) : toNumber (messageSequence s) = s.
Proof. destruct s; reflexivity. Qed.

(** One message that [processMessage] handles without throwing. *)
Lemma processMessage_returns (message : Message) (t : JsValue) (ob : OrderBook) :
  thrown (processMessage message t ob) = None ->
  let stale := lessEq (msg_sequence message) (toNumber (sequence (book ob))) in
  toNumber (sequence (book (final (processMessage message t ob))))
    = (if stale then toNumber (sequence (book ob)) else msg_sequence message)
  /\ domainEvents (trace (processMessage message t ob))
     = (if stale then [] else [(msg_type message, {| data := message; time := t |})])
  /\ ignoredEvents (trace (processMessage message t ob))
     = (if stale then [message] else []).
Proof.
  intros Hret stale. subst stale.
  destruct (processMessage_cases message t ob)
    as [[-> Hrun] | [(-> & _ & Hrun) | (-> & _ & Hrun)]]; rewrite Hrun in Hret |- *.
  - cbn. auto.
  - cbn. rewrite toNumber_messageSequence. auto.
  - pose proof (changeState_domainEvents error ob) as Hnone.
    pose proof (changeState_ignoredEvents error ob) as Hnoign.
    destruct (changeState error ob) as [o' tr [e |]] eqn:Hcs;
      cbn [trace] in Hnone, Hnoign.
    + rewrite (andThen_thrown _ _ _ e) in Hret by (rewrite Hcs; reflexivity).
      rewrite Hcs in Hret. discriminate Hret.
    + rewrite (andThen_ok _ _ _ _ _ Hcs). step_action.
      rewrite domainEvents_app, ignoredEvents_app, Hnone, Hnoign. cbn.
      rewrite toNumber_messageSequence. auto.
Qed.

Lemma reached_highest (messages : list Message) :
  forall current : Z,
    Forall (fun m => is_Some (msg_sequence m)) messages ->
    reached (Some current) messages = Some (highest current messages).
Proof.
  induction messages as [| m rest IH]; intros current Hall; [reflexivity |].
  inversion Hall as [| ? ? [s Hs] Hrest]; subst.
  cbn [reached highest foldl]. rewrite Hs. cbn [lessEq].
  destruct (Z.leb_spec s current).
  - rewrite Z.max_l by lia. apply IH, Hrest.
  - rewrite Z.max_r by lia. apply IH, Hrest.
Qed.

Lemma processed_returns (events : list (Message * JsValue)) :
  forall ob : OrderBook,
    Forall (fun r => thrown r = None) (runCalls (processed events) ob) ->
    map (fun ev => data (snd ev))
      (domainEvents (concat (map trace (runCalls (processed events) ob))))
      = accepted (toNumber (sequence (book ob))) (map fst events)
    /\ ignoredEvents (concat (map trace (runCalls (processed events) ob)))
       = rejected (toNumber (sequence (book ob))) (map fst events)
    /\ toNumber (sequence (book (after (processed events) ob)))
       = reached (toNumber (sequence (book ob))) (map fst events).
Proof.
  induction events as [| [m t] events IH]; intros ob Hret.
  - cbn. auto.
  - cbn [processed map fst snd runCalls call] in Hret |- *.
    inversion Hret as [| ? ? Hhead Htail]; subst.
    destruct (processMessage_returns m t ob Hhead) as (Hseq & Hdom & Hign).
    destruct (IH _ Htail) as (IHdom & IHign & IHseq).
    change (after (CallProcessMessage m t :: ?cs) ob)
      with (after cs (final (processMessage m t ob))).
    fold (processed events).
    cbn [concat accepted rejected reached].
    rewrite domainEvents_app, ignoredEvents_app, map_app, IHdom, IHign, IHseq.
    rewrite Hdom, Hign, Hseq.
    destruct (lessEq (msg_sequence m) (toNumber (sequence (book ob)))); cbn; auto.
Qed.

(** X5. Through a series of calls of [processMessage] that all return,
    every message is emitted once: as [ignored] if it is stale when its
    turn comes (it carries a sequence that is at most the one of the
    last message taken before it), as a domain event otherwise, each kind
    in the order of the series; the sequence of the book ends as that of
    the last message taken.  When every message carries a sequence and
    the book's sequence was [null] or a number, that is the largest of
    the previous sequence and those of the series. *)
Theorem messages_are_emitted_or_ignored_by_sequence
    (events : list (Message * JsValue)) (ob : OrderBook) :
  Forall (fun r => thrown r = None) (runCalls (processed events) ob) ->
  map (fun ev => data (snd ev))
    (domainEvents (concat (map trace (runCalls (processed events) ob))))
    = accepted (toNumber (sequence (book ob))) (map fst events)
  /\ ignoredEvents (concat (map trace (runCalls (processed events) ob)))
     = rejected (toNumber (sequence (book ob))) (map fst events)
  /\ toNumber (sequence (book (after (processed events) ob)))
     = reached (toNumber (sequence (book ob))) (map fst events)
  /\ (forall current : Z,
        toNumber (sequence (book ob)) = Some current ->
        Forall (fun m => is_Some (msg_sequence m)) (map fst events) ->
        toNumber (sequence (book (after (processed events) ob)))
          = Some (highest current (map fst events))).
Proof.
  intros Hret. destruct (processed_returns events ob Hret) as (Hdom & Hign & Hseq).
  split; [exact Hdom |]. split; [exact Hign |]. split; [exact Hseq |].
  intros current Hc Hall. rewrite Hseq, Hc. apply reached_highest, Hall.
Qed.

Lemma messages_are_emitted_or_ignored_by_sequence_witness :
  Forall (fun r => thrown r = None)
    (runCalls (processed [(sampleMessage 48, JsDate 1000); (sampleMessage 51, JsDate 1001);
                          (sampleMessage 53, JsDate 1002); (sampleMessage 52, JsDate 1003)])
       processingBook)
  /\ map (fun ev => data (snd ev))
       (domainEvents
          (concat (map trace
             (runCalls (processed [(sampleMessage 48, JsDate 1000);
                                   (sampleMessage 51, JsDate 1001);
                                   (sampleMessage 53, JsDate 1002);
                                   (sampleMessage 52, JsDate 1003)])
                processingBook))))
     = [sampleMessage 51; sampleMessage 53]
  /\ ignoredEvents
       (concat (map trace
          (runCalls (processed [(sampleMessage 48, JsDate 1000);
                                (sampleMessage 51, JsDate 1001);
                                (sampleMessage 53, JsDate 1002);
                                (sampleMessage 52, JsDate 1003)])
             processingBook)))
     = [sampleMessage 48; sampleMessage 52].
Proof.
  assert (H : Forall (fun r => thrown r = None)
                (runCalls (processed [(sampleMessage 48, JsDate 1000);
                                      (sampleMessage 51, JsDate 1001);
                                      (sampleMessage 53, JsDate 1002);
                                      (sampleMessage 52, JsDate 1003)])
                   processingBook))
    by (vm_compute; repeat constructor).
  split; [exact H |].
  destruct (messages_are_emitted_or_ignored_by_sequence _ processingBook H)
    as (Hacc & Hrej & _).
  split; [rewrite Hacc | rewrite Hrej]; vm_compute; reflexivity.
Defined.

(** ** The bootstrap *)

Lemma Silent_skip (P : OrderBook -> Prop) : Silent P skip.
Proof. intros ob H. split; [exact H | reflexivity]. Qed.

Lemma Silent_throw (P : OrderBook -> Prop) (e : Exn) : Silent P (throw e).
Proof. intros ob H. split; [exact H | reflexivity]. Qed.

Lemma Silent_perform (P : OrderBook -> Prop) (e : Effect) :
  domainEvents [e] = [] -> Silent P (perform e).
Proof. intros He ob H. split; [exact H | exact He]. Qed.

Lemma Silent_assign (P : OrderBook -> Prop) (f : OrderBook -> OrderBook) :
  (forall ob, P ob -> P (f ob)) -> Silent P (assign f).
Proof. intros Hf ob H. split; [apply Hf, H | reflexivity]. Qed.

Lemma Silent_withThis (P : OrderBook -> Prop) (k : OrderBook -> Action) :
  (forall this, P this -> Silent P (k this)) -> Silent P (withThis k).
Proof. intros Hk ob H. exact (Hk ob H ob H). Qed.

Lemma Silent_andThen (P : OrderBook -> Prop) (a b : Action) :
  Silent P a -> Silent P b -> Silent P (andThen a b).
Proof.
  intros Ha Hb ob H. destruct (Ha ob H) as [HP Hnone].
  unfold andThen. destruct (thrown (a ob)); [auto |].
  destruct (Hb _ HP) as [HP' Hnone'].
  cbn [final trace]. rewrite domainEvents_app, Hnone, Hnone'. auto.
Qed.

Lemma Silent_onSnapshot (P : OrderBook -> Prop) (r : Response) :
  Silent P (onSnapshot r).
Proof.
  intros ob H. destruct (onSnapshot_run r ob) as (e & -> & _).
  split; [exact H | reflexivity].
Qed.

Lemma changeState_state (st : STATES) (ob : OrderBook) :
  state (final (changeState st ob)) = Some st.
Proof.
  unfold changeState. step_action.
  destruct (3 <? failCount ob); step_action; [reflexivity |].
  destruct st; unfold socketClose; step_action;
    try (destruct (socket ob); step_action); reflexivity.
Qed.

Lemma Silent_changeState (st : STATES) :
  st <> processing -> Silent awaitingSnapshot (changeState st).
Proof.
  intros Hst ob [_ Hbook].
  destruct (changeState_frame st ob) as (Hframe & _ & _).
  split; [| apply changeState_domainEvents].
  split; [rewrite changeState_state; congruence | congruence].
Qed.

Ltac silent :=
  repeat match goal with
    | |- Silent _ (andThen _ _) => apply Silent_andThen
    | |- Silent _ (withThis _) =>
        let this := fresh "this" in
        let Hthis := fresh "Hthis" in
        apply Silent_withThis; intros this Hthis; cbv beta
    | |- Silent _ skip => apply Silent_skip
    | |- Silent _ (throw _) => apply Silent_throw
    | |- Silent _ (perform _) => apply Silent_perform; reflexivity
    | |- Silent _ (onSnapshot _) => apply Silent_onSnapshot
    | |- Silent _ (changeState _) => apply Silent_changeState; discriminate
    | |- Silent _ (assign _) =>
        apply Silent_assign; intros ? [? ?]; split; cbn; solve [assumption | reflexivity]
    | |- Silent _ (match ?x with _ => _ end) => destruct x
    end.

Lemma call_awaitingSnapshot (c : Call) :
  feedCall c = true -> Silent awaitingSnapshot (call c).
Proof.
  intros Hc.
  destruct c as [| | | st | | | now d | | | r | message t];
    try discriminate Hc; cbn [call]; unfold_methods; try solve [silent].
  - apply Silent_changeState. intros ->. discriminate Hc.
  - apply Silent_withThis. intros this [Hst _].
    destruct (decide (state this = Some processing)); [contradiction | silent].
Qed.

Lemma constructed_awaitingSnapshot (pid ws rest : string) :
  awaitingSnapshot (newOrderBook pid ws rest).
Proof.
  unfold newOrderBook. rewrite connect_run. split; [discriminate | reflexivity].
Qed.

(** X6. The bootstrap never completes.  On an order book built by the
    constructor, through any series of calls made by the socket, the
    timer, the HTTP client and the owner, other than entering
    [processing] or calling [processMessage] from outside, the state
    never becomes [processing], the book stays as [clearBook] leaves it
    (sequence [null], both sides empty) and no domain event is emitted:
    every message of the feed is queued, none is ever processed. *)
Theorem bootstrap_never_completes (pid ws rest : string) (calls : list Call) :
  Forall (fun c => feedCall c = true) calls ->
  Forall (fun r => state (final r) <> Some processing
                   /\ book (final r) = {| sequence := SeqNull; bids := ∅; asks := ∅ |}
                   /\ domainEvents (trace r) = [])
    (runCalls calls (newOrderBook pid ws rest)).
Proof.
  pose proof (constructed_awaitingSnapshot pid ws rest) as Hnew.
  revert Hnew. generalize (newOrderBook pid ws rest).
  induction calls as [| c cs IH]; intros ob Hob Hcalls; cbn [runCalls]; [constructor |].
  inversion Hcalls as [| ? ? Hc Hcs]; subst.
  destruct (call_awaitingSnapshot c Hc ob Hob) as [Hnext Hnone].
  constructor; [| apply IH; assumption].
  destruct Hnext as [Hst Hbook]. auto.
Qed.

Lemma bootstrap_never_completes_witness :
  Forall (fun c => feedCall c = true) queuedThenLoaded
  /\ Forall (fun r => state (final r) <> Some processing
                      /\ book (final r) = {| sequence := SeqNull; bids := ∅; asks := ∅ |}
                      /\ domainEvents (trace r) = [])
       (runCalls queuedThenLoaded sampleBook).
Proof.
  assert (H : Forall (fun c => feedCall c = true) queuedThenLoaded)
    by (repeat constructor).
  split; [exact H |].
  exact (bootstrap_never_completes "BTC-USD" "wss://ws-feed.exchange.coinbase.com"
           "https://api.exchange.coinbase.com" queuedThenLoaded H).
Defined.

(** ** The queue over the life of the object *)

Lemma changeState_queueIs (q : list Message) (st : STATES) :
  Preserves (fun ob => queue ob = q) (changeState st).
Proof.
  intros ob Hq. destruct (changeState_frame st ob) as (_ & Hqueue & _).
  rewrite Hqueue. exact Hq.
Qed.

Lemma call_queue (c : Call) (ob : OrderBook) :
  feedCall c = true ->
  state ob <> Some processing ->
  queue (final (call c ob)) = queueAfter (queue ob) c.
Proof.
  intros Hc Hst.
  destruct c as [| | | st | | | now d | | | r | message t];
    try discriminate Hc; cbn [call queueAfter].
  - rewrite connect_run. reflexivity.
  - refine ((_ : Preserves (fun o => queue o = queue ob) _) ob eq_refl).
    unfold_methods. preserves ltac:(first [apply changeState_queueIs | assumption]).
  - reflexivity.
  - apply (changeState_queueIs (queue ob) st ob eq_refl).
  - refine ((_ : Preserves (fun o => queue o = queue ob) _) ob eq_refl).
    unfold_methods. preserves ltac:(first [apply changeState_queueIs | assumption]).
  - apply (changeState_queueIs (queue ob) closed ob eq_refl).
  - rewrite (onMessage_queued now d ob Hst). reflexivity.
  - refine ((_ : Preserves (fun o => queue o = queue ob) _) ob eq_refl).
    unfold_methods. preserves ltac:(first [apply changeState_queueIs | assumption]).
  - reflexivity.
  - destruct (onSnapshot_run r ob) as (e & -> & _). reflexivity.
Qed.

(** X7. The queue is never replayed nor emptied by a snapshot.  On an
    order book built by the constructor and driven by its feed, the queue
    holds, after any series of calls, exactly the messages received
    since the last [connect] (or [clearBook]), in their order of arrival:
    a response to the snapshot request, whatever it is, leaves them
    there. *)
Theorem queue_holds_messages_since_last_connect
    (pid ws rest : string) (calls : list Call) :
  Forall (fun c => feedCall c = true) calls ->
  queue (after calls (newOrderBook pid ws rest)) = pending calls.
Proof.
  unfold pending.
  change (@nil Message) with (queue (newOrderBook pid ws rest)) at 1.
  pose proof (constructed_awaitingSnapshot pid ws rest) as Hnew.
  revert Hnew. generalize (newOrderBook pid ws rest).
  induction calls as [| c cs IH]; intros ob Hob Hcalls; [reflexivity |].
  inversion Hcalls as [| ? ? Hc Hcs]; subst.
  change (after (c :: cs) ob) with (after cs (final (call c ob))).
  cbn [foldl].
  rewrite <- (call_queue c ob Hc (proj1 Hob)).
  apply IH; [| exact Hcs].
  apply (call_awaitingSnapshot c Hc ob Hob).
Qed.

Lemma queue_holds_messages_since_last_connect_witness :
  Forall (fun c => feedCall c = true)
    [CallOnMessage 999 (sampleMessage 40); CallOnClose; CallConnect; CallOnOpen;
     CallOnMessage 1000 (sampleMessage 51);
     CallOnSnapshot (HttpResponse 200 (Parsed sampleSnapshot));
     CallOnMessage 1001 (sampleMessage 52)]
  /\ queue (after [CallOnMessage 999 (sampleMessage 40); CallOnClose; CallConnect;
                   CallOnOpen; CallOnMessage 1000 (sampleMessage 51);
                   CallOnSnapshot (HttpResponse 200 (Parsed sampleSnapshot));
                   CallOnMessage 1001 (sampleMessage 52)] sampleBook)
     = [sampleMessage 51; sampleMessage 52].
Proof.
  assert (H : Forall (fun c => feedCall c = true)
                [CallOnMessage 999 (sampleMessage 40); CallOnClose; CallConnect;
                 CallOnOpen; CallOnMessage 1000 (sampleMessage 51);
                 CallOnSnapshot (HttpResponse 200 (Parsed sampleSnapshot));
                 CallOnMessage 1001 (sampleMessage 52)])
    by (repeat constructor).
  split; [exact H |].
  exact (queue_holds_messages_since_last_connect "BTC-USD"
           "wss://ws-feed.exchange.coinbase.com" "https://api.exchange.coinbase.com" _ H).
Defined.

(** ** Disconnecting, failing and recovering *)

(** X8. On a connected book [disconnect] is handled as a failure: with
    the counter at most 3 it closes the socket (twice), moves to [closed],
    adds one to the counter and sets the 5-second timer of a reconnect;
    with the counter above 3 it closes the socket once and throws the
    give-up error. *)
Theorem disconnect_counts_as_failure (ob : OrderBook) (s : nat) :
  socket ob = Some s ->
  (failCount ob <= 3 ->
   disconnect ob =
     {| final := set_failCount (failCount ob + 1) (set_state (Some closed) ob);
        trace := [SocketClose s; SocketClose s; SetTimeoutConnect 5000;
                  Log Info "statechange: ";
                  Emit "statechange" (StateChange (state ob) closed)];
        thrown := None |})
  /\ (3 < failCount ob ->
      disconnect ob =
        {| final := set_state (Some closed) ob;
           trace := [SocketClose s];
           thrown := Some gaveUp |}).
Proof.
  intros Hs. split; intros Hfc; unfold disconnect, onClose.
  - step_action. rewrite Hs. step_action. unfold socketClose. step_action.
    rewrite Hs. step_action.
    rewrite (changeState_failure closed ob s eq_refl Hs Hfc). reflexivity.
  - step_action. rewrite Hs. step_action. unfold socketClose. step_action.
    rewrite Hs. step_action.
    rewrite (changeState_gaveUp closed ob Hfc). reflexivity.
Qed.

Lemma disconnect_counts_as_failure_witness :
  socket processingBook = Some O
  /\ failCount processingBook <= 3
  /\ 3 < failCount failedBook
  /\ In (SetTimeoutConnect 5000) (trace (disconnect processingBook))
  /\ thrown (disconnect failedBook) = Some gaveUp.
Proof.
  assert (Hs : socket processingBook = Some O) by reflexivity.
  assert (Hs' : socket failedBook = Some O) by reflexivity.
  assert (Hle : failCount processingBook <= 3) by (vm_compute; discriminate).
  assert (Hgt : 3 < failCount failedBook) by (vm_compute; reflexivity).
  split; [exact Hs |]. split; [exact Hle |]. split; [exact Hgt |]. split.
  - rewrite (proj1 (disconnect_counts_as_failure processingBook O Hs) Hle).
    cbn. auto.
  - rewrite (proj2 (disconnect_counts_as_failure failedBook O Hs') Hgt).
    reflexivity.
Defined.

(** X9. When the snapshot request fails, by a transport error or by any
    status other than 200, the callback throws on [this.changeState]:
    no field changes, the socket is not closed, no reconnect is
    scheduled and nothing is logged.  The failure is not counted and the
    request is not made again. *)
Theorem failed_snapshot_is_not_retried (r : Response) (ob : OrderBook) :
  failedResponse r = true ->
  onSnapshot r ob =
    {| final := ob; trace := [];
       thrown := Some (TypeError "this.changeState is not a function") |}.
Proof.
  intros Hfail. unfold onSnapshot, requestCallback, bound.
  destruct r as [| statusCode body]; cbn [failedResponse] in Hfail; [reflexivity |].
  rewrite Hfail. reflexivity.
Qed.

Lemma failed_snapshot_is_not_retried_witness :
  failedResponse (HttpResponse 503 Malformed) = true
  /\ final (onSnapshot (HttpResponse 503 Malformed) (final (onOpen sampleBook)))
     = final (onOpen sampleBook)
  /\ timersSet [onSnapshot (HttpResponse 503 Malformed) (final (onOpen sampleBook))] = O.
Proof.
  assert (Hr : failedResponse (HttpResponse 503 Malformed) = true) by reflexivity.
  split; [exact Hr |].
  rewrite (failed_snapshot_is_not_retried _ (final (onOpen sampleBook)) Hr).
  split; reflexivity.
Defined.

(** [onOpen], statement by statement. *)
Lemma onOpen_run (ob : OrderBook) (s : nat) :
  socket ob = Some s ->
  (failCount ob <= 3 ->
   onOpen ob =
     {| final := set_state (Some syncing) ob;
        trace := [Log Info "statechange: ";
                  Emit "statechange" (StateChange (state ob) open);
                  Log Info "statechange: ";
                  Emit "statechange" (StateChange (Some open) syncing);
                  SocketSend s {| sub_type := "subscribe"; product_id := productID ob |};
                  HttpGet (restURI ob +:+ "/products/" +:+ productID ob +:+ "/book?level=3")];
        thrown := None |})
  /\ (3 < failCount ob ->
      onOpen ob =
        {| final := set_state (Some open) ob; trace := []; thrown := Some gaveUp |}).
Proof.
  intros Hs. split; intros Hfc; unfold onOpen.
  - rewrite (andThen_ok _ _ _ _ _ (changeState_quiet open ob (or_introl eq_refl) Hfc)).
    unfold sync.
    assert (Hfc' : failCount (set_state (Some open) ob) <= 3) by exact Hfc.
    rewrite (andThen_ok _ _ _ _ _
               (changeState_quiet syncing (set_state (Some open) ob)
                  (or_intror eq_refl) Hfc')).
    unfold loadSnapshot. step_action. rewrite Hs. step_action. reflexivity.
  - rewrite (andThen_thrown _ _ _ gaveUp);
      rewrite (changeState_gaveUp open ob Hfc); reflexivity.
Qed.

(** X10. When the socket opens on a book with the counter at most 3,
    [onOpen] passes through [open] into [syncing], emitting the two
    transitions, then sends the subscription for the product on the
    socket and requests the level-3 book of the product; no other field
    than the state changes.  With the counter above 3 it throws at once:
    nothing is sent and nothing is requested. *)
Theorem onOpen_subscribes_then_requests_snapshot (ob : OrderBook) (s : nat) :
  socket ob = Some s ->
  (failCount ob <= 3 ->
   onOpen ob =
     {| final := set_state (Some syncing) ob;
        trace := [Log Info "statechange: ";
                  Emit "statechange" (StateChange (state ob) open);
                  Log Info "statechange: ";
                  Emit "statechange" (StateChange (Some open) syncing);
                  SocketSend s {| sub_type := "subscribe"; product_id := productID ob |};
                  HttpGet (restURI ob +:+ "/products/" +:+ productID ob +:+ "/book?level=3")];
        thrown := None |})
  /\ (3 < failCount ob ->
      onOpen ob =
        {| final := set_state (Some open) ob; trace := []; thrown := Some gaveUp |}).
Proof. exact (onOpen_run ob s). Qed.

Lemma onOpen_subscribes_then_requests_snapshot_witness :
  socket sampleBook = Some O
  /\ failCount sampleBook <= 3
  /\ 3 < failCount failedBook
  /\ state (final (onOpen sampleBook)) = Some syncing
  /\ trace (onOpen failedBook) = [].
Proof.
  assert (Hs : socket sampleBook = Some O) by reflexivity.
  assert (Hs' : socket failedBook = Some O) by reflexivity.
  assert (Hle : failCount sampleBook <= 3) by (vm_compute; discriminate).
  assert (Hgt : 3 < failCount failedBook) by (vm_compute; reflexivity).
  split; [exact Hs |]. split; [exact Hle |]. split; [exact Hgt |]. split.
  - rewrite (proj1 (onOpen_subscribes_then_requests_snapshot sampleBook O Hs) Hle).
    reflexivity.
  - rewrite (proj2 (onOpen_subscribes_then_requests_snapshot failedBook O Hs') Hgt).
    reflexivity.
Defined.

(** X11. A reconnect does not recover.  From any book with a socket and
    the counter at most 2: the socket closing, the timer firing and the
    new socket opening throw nothing, and the snapshot arriving with
    status 200 makes the callback throw; the series ends in state
    [syncing], not [processing], with the failure still counted, the
    queue and the book empty and the new socket in place. *)
Theorem reconnect_stops_at_syncing (d : Snapshot) (ob : OrderBook) (s : nat) :
  socket ob = Some s ->
  failCount ob <= 2 ->
  map thrown (runCalls (recovery d) ob)
    = [None; None; None;
       Some (TypeError "Cannot read properties of undefined (reading 'book')")]
  /\ state (after (recovery d) ob) = Some syncing
  /\ failCount (after (recovery d) ob) = failCount ob + 1
  /\ queue (after (recovery d) ob) = []
  /\ socket (after (recovery d) ob) = Some (S s)
  /\ book (after (recovery d) ob) = {| sequence := SeqNull; bids := ∅; asks := ∅ |}.
Proof.
  intros Hs Hfc. unfold recovery, after. cbn [runCalls foldl call map].
  unfold onClose.
  rewrite (changeState_failure closed ob s eq_refl Hs) by lia. cbn [final thrown].
  set (ob1 := set_failCount _ _).
  rewrite (connect_run ob1). cbn [final thrown].
  set (ob2 := set_socket _ _).
  assert (Hs2 : socket ob2 = Some (S s)).
  { unfold ob2, nextSocket, ob1. cbn. rewrite Hs. reflexivity. }
  assert (Hfc2 : failCount ob2 <= 3) by (unfold ob2, ob1; cbn; lia).
  rewrite (proj1 (onOpen_run ob2 (S s) Hs2) Hfc2).
  cbn [final thrown].
  split; [reflexivity |]. split; [reflexivity |]. split; [reflexivity |].
  split; [reflexivity |]. split; [exact Hs2 | reflexivity].
Qed.

Lemma reconnect_stops_at_syncing_witness :
  socket processingBook = Some O
  /\ failCount processingBook <= 2
  /\ state (after (recovery sampleSnapshot) processingBook) = Some syncing
  /\ failCount (after (recovery sampleSnapshot) processingBook) = 1.
Proof.
  assert (Hs : socket processingBook = Some O) by reflexivity.
  assert (Hfc : failCount processingBook <= 2) by (vm_compute; discriminate).
  split; [exact Hs |]. split; [exact Hfc |].
  destruct (reconnect_stops_at_syncing sampleSnapshot processingBook O Hs Hfc)
    as (_ & Hstate & Hcount & _).
  split; [exact Hstate | rewrite Hcount; vm_compute; reflexivity].
Defined.

(** ** The failure counter over the life of the object *)

Lemma changeState_atLeast (n : Z) (st : STATES) :
  st <> processing -> Preserves (fun ob => n <= failCount ob) (changeState st).
Proof.
  intros Hst ob Hn.
  unfold changeState. step_action.
  destruct (3 <? failCount ob); step_action; [exact Hn |].
  destruct st; try contradiction; unfold socketClose; step_action;
    try (destruct (socket ob); step_action); cbn; lia.
Qed.

Lemma call_atLeast (n : Z) (c : Call) :
  resetsCounter c = false -> Preserves (fun ob => n <= failCount ob) (call c).
Proof.
  intros Hc.
  destruct c as [| | | st | | | now d | | | r | message t]; cbn [call];
    unfold_methods; unfold processMessage;
    preserves ltac:(first [ apply changeState_atLeast; discriminate
                          | assumption ]).
  apply changeState_atLeast. intros ->. discriminate Hc.
Qed.

(** X12. Failures are never forgiven.  The failure counter is set back
    only by the transition into [processing]: through any series of
    other calls, on any order book, the counter never goes down. *)
Theorem failure_counter_never_goes_down (calls : list Call) (ob : OrderBook) :
  Forall (fun c => resetsCounter c = false) calls ->
  failCount ob <= failCount (after calls ob)
  /\ Forall (fun r => failCount ob <= failCount (final r)) (runCalls calls ob).
Proof.
  intros Hcalls.
  refine (Preserves_after (fun o => failCount ob <= failCount o) calls _ ob _).
  - intros c Hin. apply call_atLeast.
    rewrite Forall_forall in Hcalls. apply Hcalls. apply list_elem_of_In. exact Hin.
  - cbn. lia.
Qed.

Lemma failure_counter_never_goes_down_witness :
  Forall (fun c => resetsCounter c = false)
    (CallOnClose :: CallConnect :: CallOnOpen
     :: CallOnSnapshot (HttpResponse 200 (Parsed sampleSnapshot))
     :: arrivals [(1000, sampleMessage 51)])
  /\ failCount (after [CallOnClose] sampleBook)
     <= failCount (after (CallOnClose :: CallConnect :: CallOnOpen
                          :: CallOnSnapshot (HttpResponse 200 (Parsed sampleSnapshot))
                          :: arrivals [(1000, sampleMessage 51)])
                     (after [CallOnClose] sampleBook)).
Proof.
  assert (H : Forall (fun c => resetsCounter c = false)
                (CallOnClose :: CallConnect :: CallOnOpen
                 :: CallOnSnapshot (HttpResponse 200 (Parsed sampleSnapshot))
                 :: arrivals [(1000, sampleMessage 51)]))
    by (repeat constructor).
  split; [exact H |].
  exact (proj1 (failure_counter_never_goes_down _ (after [CallOnClose] sampleBook) H)).
Defined.

(** * The HTTP publisher *)

Lemma takeRight_drop {T : Type} (d : list T) (n : Z) :
  n <= Z.of_nat (length d) ->
  takeRight d n = drop (length d - Z.to_nat n) d.
Proof.
  intros Hn. unfold takeRight.
  destruct (Z.eqb_spec (Z.of_nat (length d)) 0) as [Hzero | Hpos].
  - destruct d; [reflexivity | discriminate Hzero].
  - destruct (Z.ltb_spec (Z.of_nat (length d) - n) 0) as [Hneg | Hok]; [lia |].
    destruct (Z.le_gt_cases 0 n) as [Hnonneg | Hnegative].
    + f_equal. lia.
    + rewrite !drop_ge by lia. reflexivity.
Qed.

(** X13. Whatever the [max] parameter, the response is a suffix of the
    loaded records: the publisher only ever drops records from the front.
    For an integer [max] that is not negative it holds the last [max]
    records, all of them when there are fewer; without [max], or when
    [parseInt] gives NaN, it holds all records. *)
Theorem response_holds_last_max_records {T : Type}
    (parseInt : string -> ParsedInt) (rawMax : option string) (d : list T) :
  (exists dropped, d = dropped ++ respond parseInt rawMax d)
  /\ (forall r n, rawMax = Some r -> parseInt r = Int n -> 0 <= n ->
        respond parseInt rawMax d = drop (length d - Z.to_nat n) d
        /\ length (respond parseInt rawMax d) = Nat.min (Z.to_nat n) (length d))
  /\ (rawMax = None \/ (exists r, rawMax = Some r /\ parseInt r = NaN) ->
        respond parseInt rawMax d = d).
Proof.
  unfold respond. split; [| split].
  - destruct rawMax as [r |]; cbn [getParameter handler]; [| exists []; reflexivity].
    destruct (parseInt r) as [| n]; [exists []; reflexivity |].
    destruct (Z.leb_spec n (Z.of_nat (length d))) as [Hle | Hgt];
      [| exists []; reflexivity].
    rewrite (takeRight_drop d n Hle).
    exists (take (length d - Z.to_nat n) d). symmetry. apply take_drop.
  - intros r n -> Hparse Hn. cbn [getParameter handler]. rewrite Hparse.
    destruct (Z.leb_spec n (Z.of_nat (length d))) as [Hle | Hgt].
    + rewrite (takeRight_drop d n Hle). split; [reflexivity |].
      rewrite length_drop. lia.
    + replace (length d - Z.to_nat n)%nat with O by lia.
      split; [reflexivity | lia].
  - intros [-> | (r & -> & Hparse)]; cbn [getParameter handler];
      [| rewrite Hparse]; reflexivity.
Qed.

Lemma response_holds_last_max_records_witness :
  (fun _ : string => Int 2) "2" = Int 2
  /\ 0 <= 2
  /\ respond (fun _ => Int 2) (Some "2") [10; 20; 30] = [20; 30]
  /\ respond (fun _ => NaN) (Some "x") [10; 20; 30] = [10; 20; 30].
Proof.
  split; [reflexivity |]. split; [lia |].
  destruct (response_holds_last_max_records (fun _ => Int 2) (Some "2") [10; 20; 30])
    as (_ & Hlast & _).
  destruct (response_holds_last_max_records (fun _ => NaN) (Some "x") [10; 20; 30])
    as (_ & _ & Hall).
  split.
  - rewrite (proj1 (Hlast "2" 2 eq_refl eq_refl ltac:(lia))). reflexivity.
  - apply Hall. right. exists "x". split; reflexivity.
Defined.

(** X14. A negative [max] empties the response: the guard
    [max <= d.length] holds and [_.takeRight] of a negative count is the
    empty list.  So does [max = 0]. *)
Theorem negative_max_empties_response {T : Type}
    (parseInt : string -> ParsedInt) (r : string) (n : Z) (d : list T) :
  parseInt r = Int n ->
  n <= 0 ->
  respond parseInt (Some r) d = [].
Proof.
  intros Hparse Hn. unfold respond. cbn [getParameter handler]. rewrite Hparse.
  destruct (Z.leb_spec n (Z.of_nat (length d))) as [Hle | Hgt]; [| lia].
  rewrite (takeRight_drop d n Hle). apply drop_ge. lia.
Qed.

Lemma negative_max_empties_response_witness :
  (fun _ : string => Int (-1)) "-1" = Int (-1)
  /\ -1 <= 0
  /\ respond (fun _ => Int (-1)) (Some "-1") [10; 20; 30] = [].
Proof.
  split; [reflexivity |]. split; [lia |].
  apply (negative_max_empties_response (fun _ => Int (-1)) "-1" (-1) [10; 20; 30]);
    [reflexivity | lia].
Defined.

(** * The logger factory *)

Lemma startsWith_spec (target : string) :
  forall s, startsWith s target = true <-> exists post, s = target +:+ post.
Proof.
  induction target as [| c target IH]; intros s.
  - split; [intros _; exists s; reflexivity | intros _; destruct s; reflexivity].
  - destruct s as [| c' s]; cbn [startsWith].
    + split; [discriminate | intros [post Hpost]; discriminate Hpost].
    + destruct (decide (c = c')) as [<- | Hne].
      * rewrite IH. split; intros [post Hpost]; exists post.
        -- cbn. rewrite Hpost. reflexivity.
        -- cbn in Hpost. injection Hpost as Hpost. exact Hpost.
      * split; [discriminate |]. intros [post Hpost]. cbn in Hpost.
        injection Hpost as Hc _. congruence.
Qed.

Lemma stringIncludes_spec (target : string) :
  forall s,
    stringIncludes s target = true <-> exists pre post, s = pre +:+ target +:+ post.
Proof.
  induction s as [| c s IH]; cbn [stringIncludes].
  - rewrite orb_false_r, startsWith_spec. split.
    + intros [post Hpost]. exists "", post. exact Hpost.
    + intros (pre & post & Hs). destruct pre as [| c pre]; [| discriminate Hs].
      exists post. exact Hs.
  - rewrite orb_true_iff, startsWith_spec, IH. split.
    + intros [[post Hpost] | (pre & post & Hs)].
      * exists "", post. exact Hpost.
      * exists (String c pre), post. cbn. rewrite Hs. reflexivity.
    + intros (pre & post & Hs). destruct pre as [| c' pre].
      * left. exists post. exact Hs.
      * right. cbn in Hs. injection Hs as _ Hs. exists pre, post. exact Hs.
Qed.

(** X15. [log(name)] labels the logger with [name] and picks the level
    of its console from the command line: [crit] when the second
    argument (the script) contains [mocha], whatever else is passed;
    otherwise [debug] when one of the arguments is [debug], and [info]
    when none is. *)
Theorem console_level_from_command_line (argv : list string) (name : string) :
  let underMocha :=
    exists script pre post,
      argv !! 1%nat = Some script /\ script = pre +:+ "mocha" +:+ post in
  logger_label (log argv name) = name
  /\ (underMocha -> console_level (log argv name) = "crit")
  /\ (~ underMocha -> "debug" ∈ argv -> console_level (log argv name) = "debug")
  /\ (~ underMocha -> "debug" ∉ argv -> console_level (log argv name) = "info").
Proof.
  intros underMocha.
  assert (Hmocha : ((2 <=? length argv)%nat
                    && match argv !! 1%nat with
                       | Some script => stringIncludes script "mocha"
                       | None => false
                       end) = true <-> underMocha).
  { unfold underMocha. rewrite andb_true_iff. split.
    - intros [_ Hscript]. destruct (argv !! 1%nat) as [script |]; [| discriminate].
      apply stringIncludes_spec in Hscript as (pre & post & Hs).
      exists script, pre, post. auto.
    - intros (script & pre & post & Hlook & Hs). split.
      + apply Nat.leb_le. apply lookup_lt_Some in Hlook. lia.
      + rewrite Hlook. apply stringIncludes_spec. eauto. }
  unfold log.
  destruct ((2 <=? length argv)%nat && _) eqn:Hrun.
  - assert (Hyes : underMocha) by (apply Hmocha; reflexivity).
    cbn. split; [reflexivity |]. split; [reflexivity |].
    split; intros Hno; contradiction.
  - assert (Hno : ~ underMocha) by (intros H; apply Hmocha in H; discriminate H).
    split; [destruct (bool_decide _); reflexivity |].
    split; [intros H; contradiction |].
    split; intros _ Hdebug.
    + rewrite bool_decide_true by exact Hdebug. reflexivity.
    + rewrite bool_decide_false by exact Hdebug. reflexivity.
Qed.

Lemma console_level_from_command_line_witness :
  (exists script pre post,
     ["node"; "node_modules/.bin/_mocha"; "debug"] !! 1%nat = Some script
     /\ script = pre +:+ "mocha" +:+ post)
  /\ console_level (log ["node"; "node_modules/.bin/_mocha"; "debug"] "tribeca:main")
     = "crit".
Proof.
  assert (H : exists script pre post,
                ["node"; "node_modules/.bin/_mocha"; "debug"] !! 1%nat = Some script
                /\ script = pre +:+ "mocha" +:+ post).
  { exists "node_modules/.bin/_mocha", "node_modules/.bin/_", "". split; reflexivity. }
  split; [exact H |].
  exact (proj1 (proj2 (console_level_from_command_line
                         ["node"; "node_modules/.bin/_mocha"; "debug"] "tribeca:main")) H).
Defined.

(** * The REST clients *)

(** X16. Every helper that passes [null] as options fails before
    anything is requested: [request] reads [opts.body] first and throws
    the TypeError of a property read on [null].  This holds for the
    helpers of [PublicClient] and for those of [AuthenticatedClient]. *)
Theorem helpers_without_options_throw
    (stringify : Value -> string) (httpsAgent : Value)
    (numberToString : Q -> string) (hmacSha256 : string -> string -> string)
    (apiURI : string) (c : AuthenticatedClient.Credentials) (now : Z) (id : Part) :
  Forall (fun outcome => outcome = Threw bodyOfNull)
    [ PublicClient.getProducts stringify httpsAgent apiURI;
      PublicClient.getProductTicker stringify httpsAgent apiURI id;
      PublicClient.getProductTrades stringify httpsAgent apiURI id;
      PublicClient.getProductHistoricRates stringify httpsAgent apiURI id;
      PublicClient.getProduct24HrStats stringify httpsAgent apiURI id;
      PublicClient.getCurrencies stringify httpsAgent apiURI;
      PublicClient.getTime stringify httpsAgent apiURI;
      AuthenticatedClient.getAccounts stringify numberToString hmacSha256 c now;
      AuthenticatedClient.getAccount stringify numberToString hmacSha256 c now id;
      AuthenticatedClient.getAccountHistory stringify numberToString hmacSha256 c now id;
      AuthenticatedClient.getAccountHolds stringify numberToString hmacSha256 c now id;
      AuthenticatedClient.cancelOrder stringify numberToString hmacSha256 c now id;
      AuthenticatedClient.cancelAllOrders stringify numberToString hmacSha256 c now;
      AuthenticatedClient.getOrders stringify numberToString hmacSha256 c now;
      AuthenticatedClient.getOrder stringify numberToString hmacSha256 c now id;
      AuthenticatedClient.getFills stringify numberToString hmacSha256 c now ].
Proof. repeat constructor. Qed.

Lemma addHeaders_lookup (obj h : gmap string Value)
    (additional : option (gmap string Value)) :
  headersObject obj = Some h ->
  addHeaders obj additional !! "headers"
    = Some (VObject (objectAssign (objectAssign h (Some defaultHeaders)) additional))
  /\ forall k, k <> "headers" -> addHeaders obj additional !! k = obj !! k.
Proof.
  intros Hh. unfold addHeaders, headersObject in *. split.
  - rewrite lookup_insert_eq.
    destruct (obj !! "headers") as [[s | q | b | h0] |]; cbn in *.
    + destruct (negb (String.eqb s "")); [discriminate Hh |].
      injection Hh as <-. reflexivity.
    + destruct (negb (Qeq_bool q 0)); [discriminate Hh |].
      injection Hh as <-. reflexivity.
    + destruct b; [discriminate Hh |]. injection Hh as <-. reflexivity.
    + injection Hh as <-. reflexivity.
    + injection Hh as <-. reflexivity.
  - intros k Hk. apply lookup_insert_ne. congruence.
Qed.

(** X17. [addHeaders] fills the headers object of the options, a new one
    when the options have none: for every header name the value is the
    one of [additional] if it gives one, else the default ([User-Agent],
    [Accept], [Content-Type]) if the name is one of the three, else the
    one the caller had put.  So the defaults overwrite the caller's
    headers of the same names, and [additional] overwrites both.  No
    other option is touched. *)
Theorem addHeaders_precedence (obj h : gmap string Value)
    (additional : option (gmap string Value)) (name : string) :
  headersObject obj = Some h ->
  exists filled,
    addHeaders obj additional !! "headers" = Some (VObject filled)
    /\ filled !! name
       = match additional ≫= (fun a => a !! name) with
         | Some v => Some v
         | None => match defaultHeaders !! name with
                   | Some v => Some v
                   | None => h !! name
                   end
         end
    /\ forall k, k <> "headers" -> addHeaders obj additional !! k = obj !! k.
Proof.
  intros Hh. destruct (addHeaders_lookup obj h additional Hh) as [Hlook Hframe].
  eexists. split; [exact Hlook |]. split; [| exact Hframe].
  unfold objectAssign. destruct additional as [a |]; cbn.
  - rewrite !lookup_union.
    destruct (a !! name), (defaultHeaders !! name), (h !! name); reflexivity.
  - rewrite lookup_union.
    destruct (defaultHeaders !! name), (h !! name); reflexivity.
Qed.

Lemma addHeaders_precedence_witness :
  headersObject {[ "headers" := VObject {[ "Accept" := VString "text/csv";
                                            "X-Trace" := VString "1" ]} ]}
    = Some {[ "Accept" := VString "text/csv"; "X-Trace" := VString "1" ]}
  /\ exists filled,
       addHeaders {[ "headers" := VObject {[ "Accept" := VString "text/csv";
                                             "X-Trace" := VString "1" ]} ]} None
         !! "headers" = Some (VObject filled)
       /\ filled !! "Accept" = Some (VString "application/json")
       /\ filled !! "X-Trace" = Some (VString "1").
Proof.
  set (h := {[ "Accept" := VString "text/csv"; "X-Trace" := VString "1" ]}
            : gmap string Value).
  assert (Hh : headersObject {[ "headers" := VObject h ]} = Some h) by reflexivity.
  split; [exact Hh |].
  destruct (addHeaders_precedence _ h None "Accept" Hh) as (filled & Hlook & Haccept & _).
  destruct (addHeaders_precedence _ h None "X-Trace" Hh) as (filled' & Hlook' & Htrace & _).
  exists filled. split; [exact Hlook |]. split; [exact Haccept |].
  rewrite Hlook in Hlook'. injection Hlook' as <-. exact Htrace.
Defined.

(** X18. [getProductOrderBook] asks the [request] library for exactly
    these options: method GET, the uri of the API followed by
    [/products/<id>/book], the level in the query string, [json: true],
    the keep-alive agent and the three default headers; no body. *)
Theorem getProductOrderBook_options
    (stringify : Value -> string) (httpsAgent : Value)
    (apiURI : string) (productID : Z) (level : Q) :
  PublicClient.getProductOrderBook stringify httpsAgent apiURI productID level
  = Requested
      {[ "qs" := VObject {[ "level" := VNumber level ]};
         "method" := VString "GET";
         "uri" := VString (apiURI +:+ "/products/" +:+ pretty productID +:+ "/book");
         "json" := VBoolean true;
         "agent" := httpsAgent;
         "headers" := VObject {[ "User-Agent" := VString "coinbase-node-client";
                                 "Accept" := VString "application/json";
                                 "Content-Type" := VString "application/json" ]} ]}.
Proof.
  unfold PublicClient.getProductOrderBook, PublicClient.request.
  f_equal.
Qed.

(** ** Signed requests *)

Section SignedRequests.

Variable stringify : Value -> string.
Variable numberToString : Q -> string.
Variable hmacSha256 : string -> string -> string.

Lemma bodyText_string (o : gmap string Value) (s : string) :
  o !! "body" = Some (VString s) ->
  AuthenticatedClient.bodyText numberToString o = s.
Proof.
  intros Hb. unfold AuthenticatedClient.bodyText. rewrite Hb. cbn [truthy].
  destruct (String.eqb_spec s "") as [-> | _]; reflexivity.
Qed.

(** The options after [request] has assigned method and uri and turned
    the body into text. *)
Lemma prepared_options (c : AuthenticatedClient.Credentials) (method : Method)
    (uriParts : list Part) (o : gmap string Value) :
  let o1 := objectAssign o
              (Some {[ "method" := VString (methodName method);
                       "uri" := VString (makeAbsoluteURI (AuthenticatedClient.apiURI c)
                                           (makeRelativeURI uriParts)) ]}) in
  let o2 := stringifyBody stringify o1 in
  o2 !! "method" = Some (VString (methodName method))
  /\ o2 !! "uri" = Some (VString (makeAbsoluteURI (AuthenticatedClient.apiURI c)
                                   (makeRelativeURI uriParts)))
  /\ headersObject o2 = headersObject o
  /\ o2 !! "body"
     = match o !! "body" with
       | Some b => if truthy b && negb (isString b)
                   then Some (VString (stringify b)) else Some b
       | None => None
       end.
Proof.
  intros o1 o2.
  assert (Hbody1 : o1 !! "body" = o !! "body").
  { unfold o1, objectAssign. rewrite lookup_union.
    rewrite lookup_insert_ne by discriminate.
    rewrite lookup_singleton_ne by discriminate.
    destruct (o !! "body"); reflexivity. }
  assert (Hhead1 : o1 !! "headers" = o !! "headers").
  { unfold o1, objectAssign. rewrite lookup_union.
    rewrite lookup_insert_ne by discriminate.
    rewrite lookup_singleton_ne by discriminate.
    destruct (o !! "headers"); reflexivity. }
  assert (Hmethod1 : o1 !! "method" = Some (VString (methodName method))).
  { unfold o1, objectAssign. rewrite lookup_union, lookup_insert_eq.
    destruct (o !! "method"); reflexivity. }
  assert (Huri1 : o1 !! "uri"
                  = Some (VString (makeAbsoluteURI (AuthenticatedClient.apiURI c)
                                     (makeRelativeURI uriParts)))).
  { unfold o1, objectAssign. rewrite lookup_union.
    rewrite lookup_insert_ne by discriminate. rewrite lookup_singleton_eq.
    destruct (o !! "uri"); reflexivity. }
  unfold o2, stringifyBody. rewrite Hbody1.
  destruct (o !! "body") as [b |]; [| unfold headersObject; rewrite Hhead1; auto].
  destruct (truthy b && negb (isString b)).
  - rewrite !lookup_insert_ne by discriminate. rewrite lookup_insert_eq.
    unfold headersObject. rewrite lookup_insert_ne by discriminate.
    rewrite Hhead1. auto.
  - unfold headersObject. rewrite Hhead1, Hbody1. auto.
Qed.

(** X19. Every request of the authenticated client that carries options
    is sent with the method and the uri of the call and with the four
    [CB-ACCESS] headers: the key, the passphrase, the time stamp
    [Date.now() / 1000], and the signature, which is the HMAC under the
    secret of the time stamp, the method, the relative uri and the body
    text, in this order.  A truthy body is sent as a string (its JSON
    text when it was not one) and that same string is the body text
    signed. *)
Theorem signature_covers_sent_body
    (c : AuthenticatedClient.Credentials) (now : Z) (method : Method)
    (uriParts : list Part) (o h : gmap string Value) :
  headersObject o = Some h ->
  exists sent filled,
    AuthenticatedClient.request stringify numberToString hmacSha256
      c now method uriParts (Some o) = Requested sent
    /\ sent !! "method" = Some (VString (methodName method))
    /\ sent !! "uri"
       = Some (VString (AuthenticatedClient.apiURI c +:+ makeRelativeURI uriParts))
    /\ sent !! "headers" = Some (VObject filled)
    /\ filled !! "CB-ACCESS-KEY" = Some (VString (AuthenticatedClient.key c))
    /\ filled !! "CB-ACCESS-PASSPHRASE"
       = Some (VString (AuthenticatedClient.passphrase c))
    /\ filled !! "CB-ACCESS-TIMESTAMP" = Some (VNumber (now # 1000))
    /\ filled !! "CB-ACCESS-SIGN"
       = Some (VString
                 (hmacSha256 (AuthenticatedClient.b64secret c)
                    (numberToString (now # 1000) +:+ methodName method
                     +:+ makeRelativeURI uriParts
                     +:+ AuthenticatedClient.bodyText numberToString sent)))
    /\ (forall b, o !! "body" = Some b -> truthy b = true ->
          exists text,
            sent !! "body" = Some (VString text)
            /\ AuthenticatedClient.bodyText numberToString sent = text
            /\ text = match b with
                      | VString s => s
                      | _ => stringify b
                      end).
Proof.
  intros Hh. unfold AuthenticatedClient.request.
  destruct (prepared_options c method uriParts o) as (Hmethod & Huri & Hhead & Hbody).
  cbv zeta in Hmethod, Huri, Hhead, Hbody |- *.
  set (o2 := stringifyBody stringify _) in *.
  rewrite Hh in Hhead.
  set (additional := Some _).
  destruct (addHeaders_lookup o2 h additional Hhead) as [Hlook Hframe].
  assert (Hsentbody : addHeaders o2 additional !! "body" = o2 !! "body")
    by (apply Hframe; discriminate).
  assert (Htext : AuthenticatedClient.bodyText numberToString (addHeaders o2 additional)
                  = AuthenticatedClient.bodyText numberToString o2).
  { unfold AuthenticatedClient.bodyText. rewrite Hsentbody. reflexivity. }
  eexists. eexists. split; [reflexivity |].
  split; [rewrite Hframe by discriminate; exact Hmethod |].
  split; [rewrite Hframe by discriminate; exact Huri |].
  split; [exact Hlook |].
  rewrite Htext.
  split; [unfold additional, objectAssign; apply lookup_union_Some_l; reflexivity |].
  split; [unfold additional, objectAssign; apply lookup_union_Some_l; reflexivity |].
  split; [unfold additional, objectAssign; apply lookup_union_Some_l; reflexivity |].
  split.
  - unfold additional, objectAssign. apply lookup_union_Some_l. reflexivity.
  - intros b Hb Htruthy. rewrite Hsentbody, Hbody, Hb, Htruthy. cbn [andb].
    destruct b as [s | q | b' | fields]; cbn [isString negb].
    + exists s. split; [reflexivity |]. split; [| reflexivity].
      apply bodyText_string. rewrite Hbody, Hb, Htruthy. reflexivity.
    + eexists. split; [reflexivity |]. split; [| reflexivity].
      apply bodyText_string. rewrite Hbody, Hb, Htruthy. reflexivity.
    + eexists. split; [reflexivity |]. split; [| reflexivity].
      apply bodyText_string. rewrite Hbody, Hb, Htruthy. reflexivity.
    + eexists. split; [reflexivity |]. split; [| reflexivity].
      apply bodyText_string. rewrite Hbody, Hb. reflexivity.
Qed.

(** X20. [buy] and [sell] send the order as a POST to [/orders] of the
    API: the body is the JSON text of the parameters with [side] set to
    [buy] (to [sell]), whatever side the caller had put; the signature is
    taken over the time stamp, [POST], [/orders] and that text; the
    headers are the four [CB-ACCESS] ones and the three defaults. *)
Theorem buy_and_sell_send_signed_order
    (c : AuthenticatedClient.Credentials) (now : Z) (params : gmap string Value) :
  let options := fun side : string =>
    let text := stringify (VObject (<[ "side" := VString side ]> params)) in
    {[ "body" := VString text;
       "method" := VString "POST";
       "uri" := VString (AuthenticatedClient.apiURI c +:+ "/orders");
       "headers" :=
         VObject
           {[ "CB-ACCESS-KEY" := VString (AuthenticatedClient.key c);
              "CB-ACCESS-SIGN" :=
                VString (hmacSha256 (AuthenticatedClient.b64secret c)
                           (numberToString (now # 1000) +:+ "POST" +:+ "/orders"
                            +:+ text));
              "CB-ACCESS-TIMESTAMP" := VNumber (now # 1000);
              "CB-ACCESS-PASSPHRASE" := VString (AuthenticatedClient.passphrase c);
              "User-Agent" := VString "coinbase-node-client";
              "Accept" := VString "application/json";
              "Content-Type" := VString "application/json" ]} ]} in
  AuthenticatedClient.buy stringify numberToString hmacSha256 c now params
    = Requested (options "buy")
  /\ AuthenticatedClient.sell stringify numberToString hmacSha256 c now params
     = Requested (options "sell").
Proof.
  intros options.
  assert (Hplaced : forall side,
            AuthenticatedClient._placeOrder stringify numberToString hmacSha256 c now
              (VObject (<[ "side" := VString side ]> params))
            = Requested (options side)).
  { intros side. unfold AuthenticatedClient._placeOrder, AuthenticatedClient.request.
    rewrite (bodyText_string _ (stringify (VObject (<[ "side" := VString side ]> params))))
      by reflexivity.
    f_equal. }
  split; apply Hplaced.
Qed.

End SignedRequests.

Lemma signature_covers_sent_body_witness :
  headersObject {[ "body" := VString "cancel" ]} = Some ∅
  /\ exists sent,
       AuthenticatedClient.request (fun _ => "{}") (fun _ => "1700000000.5")
         (fun secret text => secret +:+ text)
         {| AuthenticatedClient.key := "k"; AuthenticatedClient.b64secret := "c2VjcmV0";
            AuthenticatedClient.passphrase := "p";
            AuthenticatedClient.apiURI := "https://api.exchange.coinbase.com" |}
         1700000000500 DELETE [PString "orders"; PNumber 7]
         (Some {[ "body" := VString "cancel" ]}) = Requested sent
       /\ sent !! "method" = Some (VString "DELETE")
       /\ sent !! "body" = Some (VString "cancel").
Proof.
  assert (Hh : headersObject {[ "body" := VString "cancel" ]} = Some ∅) by reflexivity.
  split; [exact Hh |].
  destruct (signature_covers_sent_body (fun _ => "{}") (fun _ => "1700000000.5")
              (fun secret text => secret +:+ text)
              {| AuthenticatedClient.key := "k"; AuthenticatedClient.b64secret := "c2VjcmV0";
                 AuthenticatedClient.passphrase := "p";
                 AuthenticatedClient.apiURI := "https://api.exchange.coinbase.com" |}
              1700000000500 DELETE [PString "orders"; PNumber 7]
              {[ "body" := VString "cancel" ]} ∅ Hh)
    as (sent & filled & Hreq & Hmethod & _ & _ & _ & _ & _ & _ & Hbody).
  exists sent. split; [exact Hreq |]. split; [exact Hmethod |].
  destruct (Hbody (VString "cancel") eq_refl eq_refl) as (text & Hsent & _ & ->).
  exact Hsent.
Defined.

(** X21. In the earlier revision [buy] checks the order before it places
    it: without [size] it throws the error that names [size], also when
    [product_id] is missing too; with [size] and without [product_id] it
    throws the error that names [product_id]; it never reports [side],
    which it sets itself; with both present it hands the order to
    [request], as the later revision does for every order. *)
Theorem earlier_buy_reports_first_missing_param
    (stringify : Value -> string) (numberToString : Q -> string)
    (hmacSha256 : string -> string -> string)
    (c : AuthenticatedClient.Credentials) (now : Z) (params : gmap string Value) :
  (params !! "size" = None ->
   EarlierAuthenticatedClient.buy stringify numberToString hmacSha256 c now params
   = Threw (Error "`opts` must include param `size`"))
  /\ (is_Some (params !! "size") -> params !! "product_id" = None ->
      EarlierAuthenticatedClient.buy stringify numberToString hmacSha256 c now params
      = Threw (Error "`opts` must include param `product_id`"))
  /\ (is_Some (params !! "size") -> is_Some (params !! "product_id") ->
      EarlierAuthenticatedClient.buy stringify numberToString hmacSha256 c now params
      = AuthenticatedClient.buy stringify numberToString hmacSha256 c now params)
  /\ EarlierAuthenticatedClient.buy stringify numberToString hmacSha256 c now params
     <> Threw (Error "`opts` must include param `side`").
Proof.
  unfold EarlierAuthenticatedClient.buy, EarlierAuthenticatedClient._placeOrder.
  cbn [EarlierAuthenticatedClient.firstMissing].
  rewrite lookup_insert_eq.
  rewrite !lookup_insert_ne by discriminate.
  split; [| split; [| split]].
  - intros ->. reflexivity.
  - intros [v ->] ->. reflexivity.
  - intros [v ->] [w ->]. reflexivity.
  - destruct (params !! "size"); [| discriminate].
    destruct (params !! "product_id"); [| discriminate].
    unfold AuthenticatedClient.request. discriminate.
Qed.

Lemma earlier_buy_reports_first_missing_param_witness :
  ({[ "product_id" := VString "BTC-USD" ]} : gmap string Value) !! "size" = None
  /\ EarlierAuthenticatedClient.buy (fun _ => "{}") (fun _ => "1700000000.5")
       (fun secret text => secret +:+ text)
       {| AuthenticatedClient.key := "k"; AuthenticatedClient.b64secret := "c2VjcmV0";
          AuthenticatedClient.passphrase := "p";
          AuthenticatedClient.apiURI := "https://api.exchange.coinbase.com" |}
       1700000000500 {[ "product_id" := VString "BTC-USD" ]}
     = Threw (Error "`opts` must include param `size`").
Proof.
  assert (H : ({[ "product_id" := VString "BTC-USD" ]} : gmap string Value) !! "size" = None)
    by reflexivity.
  split; [exact H |].
  exact (proj1 (earlier_buy_reports_first_missing_param (fun _ => "{}")
                  (fun _ => "1700000000.5") (fun secret text => secret +:+ text)
                  {| AuthenticatedClient.key := "k"; AuthenticatedClient.b64secret := "c2VjcmV0";
                     AuthenticatedClient.passphrase := "p";
                     AuthenticatedClient.apiURI := "https://api.exchange.coinbase.com" |}
                  1700000000500 {[ "product_id" := VString "BTC-USD" ]}) H).
Defined.
